(** * sphinx_gallery/recommender.py: the example recommender

    A shallow embedding of [ExampleRecommender] (tokenizer, dictionary
    vectorizer, TF-IDF transformer, cosine similarity, [fit] and [predict])
    and of [_write_recommendations], the properties of it that the design
    document states, and further properties of the code.

    Conventions of the embedding.
    - Python [str] is [string]; the model covers ASCII text (for code points
      above 127 Python's [\w] and [str.lower] follow the Unicode tables).
    - A [dict] or [defaultdict] from tokens to counts is a [gmap string Z].
    - numpy's float64 is the kernel's binary64 [float]: [+], [*], [/] and
      [sqrt] are the IEEE operations, including infinities and NaN.
      [np.log] is not a kernel primitive and is a parameter of the TF-IDF
      transformer.  numpy's int64 is [Z] with its wrap-around written out.
    - The TF-IDF transformer is one definition over the dtype of its
      argument, instantiated at float64 and at int64.
    - A call that raises is a [Raise e]; [fit] threads the instance and the
      list of files read so far through a state and exception monad.
    - [_write_recommendations] takes the functions of the other modules and
      of [pathlib] as parameters, pure functions of their arguments; the
      file system is a map from paths to contents. *)

From Stdlib Require Import ZArith List String Ascii Floats Uint63 Bool Lia.
From Stdlib Require Import Sorting.Sorted Sorting.Permutation.
From stdpp Require Import gmap strings list sorting.

Open Scope Z_scope.
Open Scope string_scope.
Open Scope list_scope.

(** ** Exceptions and results *)

Inductive exn : Type :=
| NameError (name : string)
| UnboundLocalError (name : string)
| ValueError (msg : string)
| TypeError (msg : string)
| AttributeError (name : string)
| IndexError (msg : string)
| OSError (path : string).

Inductive result (A : Type) : Type :=
| Ok (a : A)
| Raise (e : exn).

Arguments Ok {A} a.
Arguments Raise {A} e.

Definition rbind {A B} (r : result A) (k : A -> result B) : result B :=
  match r with
  | Ok a => k a
  | Raise e => Raise e
  end.

#[global] Instance result_ret : MRet result := fun _ a => Ok a.
#[global] Instance result_bind : MBind result := fun _ _ k r => rbind r k.

(** ** Module namespace

    The names bound at module level once [recommender.py] is imported
    (lines 10-29 and 273): a function body resolves a free name here, and in
    the builtins, but never in the body of the class that encloses it. *)

Definition module_globals : list string :=
  [ "numbers"; "re"; "defaultdict"; "Path"; "np"; "sparse"; "norm";
    "_thumbnail_div"; "THUMBNAIL_PARENT_DIV"; "THUMBNAIL_PARENT_DIV_CLOSE";
    "split_code_and_text_blocks"; "extract_intro_and_title";
    "ExampleRecommender"; "_write_recommendations" ].

(** The attributes of the class [ExampleRecommender] (reached as
    [self.name] or [ExampleRecommender.name] only). *)
Definition class_attributes : list string :=
  [ "__init__"; "token_freqs"; "dict_freqs"; "dict_vectorizer";
    "tfidf_transformer"; "cosine_similarity"; "fit"; "predict" ].

Definition resolve_global (name : string) : result unit :=
  if bool_decide (name ∈ module_globals) then Ok tt else Raise (NameError name).

(** ** Tokens *)

Definition is_word_char (c : ascii) : bool :=
  let n := nat_of_ascii c in
  ((48 <=? n)%nat && (n <=? 57)%nat)
  || ((65 <=? n)%nat && (n <=? 90)%nat)
  || ((97 <=? n)%nat && (n <=? 122)%nat)
  || (n =? 95)%nat.

Definition lower_char (c : ascii) : ascii :=
  let n := nat_of_ascii c in
  if ((65 <=? n)%nat && (n <=? 90)%nat)%bool then ascii_of_nat (n + 32) else c.

(** [str.lower] *)
Fixpoint lower (s : string) : string :=
  match s with
  | EmptyString => EmptyString
  | String c s' => String (lower_char c) (lower s')
  end.

Definition flush_token (cur : string) : list string :=
  match cur with
  | EmptyString => []
  | _ => [cur]
  end.

(** [re.findall(r"\w+", doc)]: the maximal runs of word characters, left to
    right; [cur] is the run being read. *)
Fixpoint findall_word (cur : string) (doc : string) : list string :=
  match doc with
  | EmptyString => flush_token cur
  | String c doc' =>
      if is_word_char c
      then findall_word (cur ++ String c EmptyString) doc'
      else flush_token cur ++ findall_word EmptyString doc'
  end.

Definition re_findall_word (doc : string) : list string :=
  findall_word EmptyString doc.

(** ** [dict_freqs] (lines 62-68) *)

Definition count_token (freq : gmap string Z) (tok : string) : gmap string Z :=
  <[tok := default 0 (freq !! tok) + 1]> freq.

Definition dict_freqs (doc : list string) : gmap string Z :=
  foldl count_token ∅ doc.

(** ** [token_freqs] (lines 56-60)

    The generator expression evaluates [re.findall] at once; the call that
    follows names [dict_freqs] bare, so the name is looked up among the
    module globals. *)

Definition token_freqs (doc : string) : result (gmap string Z) :=
  let token_generator := lower <$> re_findall_word doc in
  _ ← resolve_global "dict_freqs";
  Ok (dict_freqs token_generator).

(** What the same body returns when the callee is reached through the
    class, as [fit] reaches [token_freqs] itself. *)
Definition token_freqs_qualified (doc : string) : gmap string Z :=
  dict_freqs (lower <$> re_findall_word doc).

(** ** Sparse matrices in CSR format

    [scipy.sparse.csr_matrix]: the stored values, their column indices, and
    the row-start offsets; row [i] owns the stored entries at positions
    [indptr[i] .. indptr[i+1]-1].  The stored values of a [csr_matrix] are
    float64, the dtype of the matrix that [dict_vectorizer] hands to
    [fit]; [csr_matrix_int64] below is the same structure with int64
    values, the dtype of a matrix built from Python integers. *)

Record csr_matrix : Type := CSR {
  data : list float;
  indices : list nat;
  indptr : list nat;
  shape : nat * nat
}.

(** int64 to float64 *)
Definition float_of_Z (z : Z) : float :=
  match z with
  | Z0 => 0%float
  | Zpos _ => PrimFloat.of_uint63 (Uint63.of_Z z)
  | Zneg p => (- PrimFloat.of_uint63 (Uint63.of_Z (Zpos p)))%float
  end.

Definition float_of_nat (n : nat) : float := float_of_Z (Z.of_nat n).

(** ** [dict_vectorizer] (lines 70-107) *)

(** What the name [row] of line 97 can be bound to: a frequency mapping, or
    a feature value taken from the list of values. *)
Inductive row_object : Type :=
| RowMapping (m : gmap string Z)
| RowValue (v : Z).

Definition str_le (a b : string) : Prop := String.leb a b = true.

#[global] Instance str_le_dec a b : Decision (str_le a b).
Proof. unfold str_le. apply _. Defined.

(** Lines 88-95: the keys of all rows, then [sorted(set(feature_names))]. *)
Definition collect_feature_names (rows : list (gmap string Z)) : list string :=
  rows ≫= (fun row => (map_to_list row).*1).

Definition sorted_feature_names (rows : list (gmap string Z)) : list string :=
  merge_sort str_le (elements (list_to_set (C := gset string) (collect_feature_names rows))).

Fixpoint enumerate_from {A} (start : nat) (l : list A) : list (nat * A) :=
  match l with
  | [] => []
  | x :: l' => (start, x) :: enumerate_from (S start) l'
  end.

(** [enumerate(l)] *)
Definition enumerate {A} (l : list A) : list (nat * A) := enumerate_from 0 l.

Fixpoint fold_result {S A} (f : S -> A -> result S) (s : S) (l : list A) : result S :=
  match l with
  | [] => Ok s
  | x :: l' => s' ← f s x; fold_result f s' l'
  end.

(** Lines 98-102 for one feature name: [if feature_name in row: ...]. *)
Definition vectorizer_feature (row : row_object) (acc : list Z * list nat)
    (jf : nat * string) : result (list Z * list nat) :=
  let '(values, indices) := acc in
  let '(j, feature_name) := jf in
  match row with
  | RowMapping m =>
      match m !! feature_name with
      | Some feature_value => Ok (values ++ [feature_value], indices ++ [j])
      | None => Ok (values, indices)
      end
  | RowValue _ => Raise (TypeError "argument of type 'int' is not iterable")
  end.

(** Lines 98-103: the body of the loop over rows. *)
Definition vectorizer_row (feature_names : list string)
    (st : list Z * list nat * list nat) (row : row_object)
    : result (list Z * list nat * list nat) :=
  let '(values, indices, indptr) := st in
  '(values, indices) ← fold_result (vectorizer_feature row) (values, indices)
                          (enumerate feature_names);
  Ok (values, indices, indptr ++ [length indices]).

(** Line 96 rebinds the name [data] to a fresh empty list of values, and the
    loop of line 97 runs over the list that [data] names then; the argument
    is no longer reachable.  The list is empty when the loop starts, so the
    rows appended by the body are never visited either. *)
Definition dict_vectorizer (data : list (gmap string Z)) : result csr_matrix :=
  let feature_names := sorted_feature_names data in
  let data : list Z := [] in
  let indices : list nat := [] in
  let indptr : list nat := [0%nat] in
  '(data, indices, indptr) ←
     fold_result (vectorizer_row feature_names) (data, indices, indptr)
       (RowValue <$> data);
  Ok (CSR (float_of_Z <$> data) indices indptr
        ((length indptr - 1)%nat, length feature_names)).

(** The loop of lines 97-103 run over the mappings themselves, which is
    what the docstring describes: one row per sample. *)
Definition vectorize_mappings (rows : list (gmap string Z)) : result csr_matrix :=
  let feature_names := sorted_feature_names rows in
  '(data, indices, indptr) ←
     fold_result (vectorizer_row feature_names) ([], [], [0%nat])
       (RowMapping <$> rows);
  Ok (CSR (float_of_Z <$> data) indices indptr
        ((length indptr - 1)%nat, length feature_names)).

(** ** Rows of a CSR matrix *)

(** The stored entries [(column, value)] of row [i]. *)
Definition csr_row (X : csr_matrix) (i : nat) : list (nat * float) :=
  let lo := nth i (indptr X) 0%nat in
  let hi := nth (S i) (indptr X) 0%nat in
  take (hi - lo) (drop lo (zip (indices X) (data X))).

Definition csr_rows (X : csr_matrix) : list (list (nat * float)) :=
  csr_row X <$> seq 0 (fst (shape X)).

(** Row-start offsets of a list of rows, from [start]. *)
Fixpoint row_offsets {A} (start : nat) (rows : list (list A)) : list nat :=
  match rows with
  | [] => [start]
  | r :: rows' => start :: row_offsets (start + length r) rows'
  end.

Definition csr_of_rows (rows : list (list (nat * float))) (sh : nat * nat) : csr_matrix :=
  CSR (concat rows).*2 (concat rows).*1 (row_offsets 0 rows) sh.

Fixpoint assoc_lookup (k : nat) (row : list (nat * float)) : option float :=
  match row with
  | [] => None
  | (k', v) :: row' => if (k =? k')%nat then Some v else assoc_lookup k row'
  end.

(** [X.toarray()[i][j]]: the stored value, or 0.0 *)
Definition csr_entry (X : csr_matrix) (i j : nat) : float :=
  default 0%float (assoc_lookup j (csr_row X i)).

Definition dense_row (n_features : nat) (row : list (nat * float)) : list float :=
  (fun j => default 0%float (assoc_lookup j row)) <$> seq 0 n_features.

Definition toarray (X : csr_matrix) : list (list float) :=
  dense_row (snd (shape X)) <$> csr_rows X.

(** [x != 0] on float64: true of NaN as well *)
Definition nonzero (x : float) : bool := negb (PrimFloat.is_zero x).

(** [sparse.csr_matrix(ndarray)] stores the entries that differ from zero. *)
Definition csr_of_dense (rows : list (list float)) : csr_matrix :=
  csr_of_rows ((fun r => filter (fun jv => nonzero jv.2) (enumerate r)) <$> rows)
    (length rows, length (default [] (head rows))).

(** The well-formed CSR matrices of the data model: offsets start at zero,
    do not decrease and end at the number of stored entries; column indices
    are within range; a row stores a column at most once; stored values are
    nonzero. *)
Fixpoint nondecreasing (l : list nat) : bool :=
  match l with
  | a :: ((b :: _) as l') => (a <=? b)%nat && nondecreasing l'
  | _ => true
  end.

Fixpoint distinct (l : list nat) : bool :=
  match l with
  | [] => true
  | x :: l' => negb (existsb (Nat.eqb x) l') && distinct l'
  end.

Definition csr_wf (X : csr_matrix) : bool :=
  (length (indptr X) =? S (fst (shape X)))%nat
  && (nth 0 (indptr X) 0 =? 0)%nat
  && nondecreasing (indptr X)
  && (List.last (indptr X) 0 =? length (indices X))%nat
  && (length (data X) =? length (indices X))%nat
  && forallb (fun k => (k <? snd (shape X))%nat) (indices X)
  && forallb (fun r => distinct r.*1) (csr_rows X)
  && forallb nonzero (data X).

(** ** Floating-point errors

    numpy does not raise on a float64 division by zero: it returns the IEEE
    result and signals the error (a [RuntimeWarning] under the default
    [np.seterr]). *)

Inductive fp_error : Type :=
| FPDivideByZero
| FPInvalid.

Definition np_true_divide (a b : float) : float * list fp_error :=
  let q := (a / b)%float in
  (q,
   if PrimFloat.is_zero b && PrimFloat.is_finite a && nonzero a then [FPDivideByZero]
   else if PrimFloat.is_nan q && negb (PrimFloat.is_nan a || PrimFloat.is_nan b) then [FPInvalid]
   else []).

(** Sums are taken left to right from 0.0. *)
Definition fsum (l : list float) : float := foldl PrimFloat.add 0%float l.

Definition sum_squares (l : list float) : float :=
  fsum ((fun v => v * v)%float <$> l).

(** ** dtypes

    The transformer computes in the dtype of its argument ([X.dtype] at
    lines 125, 134, 145 and 149).  Two dtypes are covered: float64, and
    int64, the dtype of a matrix built from counts that are Python
    integers. *)

(** int64 arithmetic wraps around. *)
Definition wrap64 (z : Z) : Z := (z + 2 ^ 63) mod 2 ^ 64 - 2 ^ 63.

(** float64 to int64 ([astype], or a store into an int64 array): the
    fraction is dropped; a value that does not fit, an infinity and NaN
    give [-2^63], the result of the conversion on x86-64. *)
Definition int64_of_float (x : float) : Z :=
  match Prim2SF x with
  | S754_zero _ => 0
  | S754_finite s m e =>
      let magnitude := if (0 <=? e)%Z then Zpos m * 2 ^ e else Zpos m / 2 ^ (- e) in
      let z := if s then - magnitude else magnitude in
      if (- 2 ^ 63 <=? z)%Z && (z <? 2 ^ 63)%Z then z else - 2 ^ 63
  | _ => - 2 ^ 63
  end.

(** int64 to float64, rounded to nearest. *)
Definition float_of_int64 (z : Z) : float :=
  if (z =? - 2 ^ 63)%Z then (- 0x1p63)%float else float_of_Z z.

(** [np.add.reduceat] on float64 is numpy's pairwise summation: fewer than
    8 values are added left to right from -0.0; up to 128 values are added
    into 8 accumulators that are then added in pairs, and the values past
    the last block of 8 are added to the result; more values are split
    into two halves, the first a multiple of 8 (the halving is at most
    [length a] deep, which is the [fuel] that [np_add_reduce] gives). *)
Fixpoint add_blocks (r a : list float) (blocks : nat) : list float * list float :=
  match blocks with
  | O => (r, a)
  | S blocks' => add_blocks (zip_with PrimFloat.add r (take 8 a)) (drop 8 a) blocks'
  end.

Definition block_sum (a : list float) : float :=
  let '(r, rest) := add_blocks (take 8 a) (drop 8 a) (length a / 8 - 1) in
  match r with
  | [r0; r1; r2; r3; r4; r5; r6; r7] =>
      foldl PrimFloat.add (((r0 + r1) + (r2 + r3)) + ((r4 + r5) + (r6 + r7)))%float rest
  | _ => 0%float
  end.

Fixpoint pairwise_sum (fuel : nat) (a : list float) : float :=
  let n := length a in
  if (n <? 8)%nat then foldl PrimFloat.add PrimFloat.neg_zero a
  else if (n <=? 128)%nat then block_sum a
  else
    match fuel with
    | O => block_sum a
    | S fuel' =>
        let n2 := (n / 2 - (n / 2) mod 8)%nat in
        (pairwise_sum fuel' (take n2 a) + pairwise_sum fuel' (drop n2 a))%float
    end.

(** The reduction starts from the first value and adds the pairwise sum of
    the others. *)
Definition np_add_reduce (first : float) (others : list float) : float :=
  (first + pairwise_sum (length others) others)%float.

(** What the transformer needs of a dtype. *)
Class Dtype (T : Type) : Type := {
  dt_zero : T;
  dt_one : T;
  dt_add : T -> T -> T;
  dt_mul : T -> T -> T;
  dt_abs : T -> T;
  (** [x != 0] *)
  dt_nonzero : T -> bool;
  (** [np.add.reduceat] over the values of a row: the first, the others *)
  dt_add_reduce : T -> list T -> T;
  (** a count (of dtype intp) converted by [astype] *)
  dt_of_intp : nat -> T;
  (** a float64 converted by [astype], or stored into an array of the dtype *)
  dt_of_float64 : float -> T;
  (** the value as an operand of a float64 operation *)
  dt_to_float64 : T -> float
}.

#[global] Instance float64 : Dtype float := {|
  dt_zero := 0%float;
  dt_one := 1%float;
  dt_add := PrimFloat.add;
  dt_mul := PrimFloat.mul;
  dt_abs := PrimFloat.abs;
  dt_nonzero := nonzero;
  dt_add_reduce := np_add_reduce;
  dt_of_intp := float_of_nat;
  dt_of_float64 := fun x => x;
  dt_to_float64 := fun x => x
|}.

#[global] Instance int64 : Dtype Z := {|
  dt_zero := 0;
  dt_one := 1;
  dt_add := fun a b => wrap64 (a + b);
  dt_mul := fun a b => wrap64 (a * b);
  dt_abs := fun a => wrap64 (Z.abs a);
  dt_nonzero := fun a => negb (a =? 0)%Z;
  dt_add_reduce := fun a l => foldl (fun s x => wrap64 (s + x)) a l;
  dt_of_intp := fun n => wrap64 (Z.of_nat n);
  dt_of_float64 := int64_of_float;
  dt_to_float64 := float_of_int64
|}.

(** ** CSR matrices of dtype int64 *)

Record csr_matrix_int64 : Type := CSR_int64 {
  data_int64 : list Z;
  indices_int64 : list nat;
  indptr_int64 : list nat;
  shape_int64 : nat * nat
}.

Definition csr_row_int64 (X : csr_matrix_int64) (i : nat) : list (nat * Z) :=
  let lo := nth i (indptr_int64 X) 0%nat in
  let hi := nth (S i) (indptr_int64 X) 0%nat in
  take (hi - lo) (drop lo (zip (indices_int64 X) (data_int64 X))).

Definition csr_rows_int64 (X : csr_matrix_int64) : list (list (nat * Z)) :=
  csr_row_int64 X <$> seq 0 (fst (shape_int64 X)).

Definition csr_of_rows_int64 (rows : list (list (nat * Z))) (sh : nat * nat)
    : csr_matrix_int64 :=
  CSR_int64 (concat rows).*2 (concat rows).*1 (row_offsets 0 rows) sh.

(** [sparse.csr_matrix(ndarray)] stores the entries that differ from zero. *)
Definition csr_of_dense_int64 (rows : list (list Z)) : csr_matrix_int64 :=
  csr_of_rows_int64 ((fun r => filter (fun jv => dt_nonzero jv.2) (enumerate r)) <$> rows)
    (length rows, length (default [] (head rows))).

(** ** [tfidf_transformer] (lines 109-151) *)

(** The argument is an ndarray or a CSR matrix, of dtype float64
    ([matrix]) or int64 ([matrix_int64]).  (A sparse matrix of another
    compressed format takes the branch of line 133, which counts the
    stored entries of each column from the offsets; the other formats
    have no offsets.) *)
Inductive matrix : Type :=
| NdArray (rows : list (list float))
| Sparse (X : csr_matrix).

Inductive matrix_int64 : Type :=
| NdArray_int64 (rows : list (list Z))
| Sparse_int64 (X : csr_matrix_int64).

(** [np.bincount(x, minlength=n)]: entry [k] counts the occurrences of [k]
    in [x]; the result has [max(n, max(x)+1)] entries. *)
Definition bincount (x : list nat) (minlength : nat) : list nat :=
  (fun k => count_occ Nat.eq_dec x k)
    <$> seq 0 (Nat.max minlength (foldr (fun i n => Nat.max (S i) n) 0%nat x)).

(** Line 131 *)
Definition document_frequency (X : csr_matrix) : list nat :=
  bincount (indices X) (snd (shape X)).

Definition document_frequency_int64 (X : csr_matrix_int64) : list nat :=
  bincount (indices_int64 X) (snd (shape_int64 X)).

Fixpoint insert_index {A} (kv : nat * A) (row : list (nat * A)) : list (nat * A) :=
  match row with
  | [] => [kv]
  | kv' :: row' =>
      if (kv.1 <=? kv'.1)%nat then kv :: row else kv' :: insert_index kv row'
  end.

(** [sort_indices] on one row: the stored entries by increasing column. *)
Definition sort_indices {A} (row : list (nat * A)) : list (nat * A) :=
  foldr insert_index [] row.

Section Transformer.

Context {T : Type} `{Dtype T}.

(** [sums[k] += p] in the product of two CSR matrices: the sums of a row
    are kept in the order in which their columns were met first. *)
Fixpoint add_to_sums (k : nat) (p : T) (sums : list (nat * T)) : list (nat * T) :=
  match sums with
  | [] => [(k, dt_add dt_zero p)]
  | (k', s) :: sums' =>
      if (k =? k')%nat then (k', dt_add s p) :: sums'
      else (k', s) :: add_to_sums k p sums'
  end.

(** The entry of [idf_diag] met by a stored entry of [X]: the CSR form of
    the diagonal stores the entries that differ from zero. *)
Definition idf_scale_step (idf_diag : list T) (sums : list (nat * T))
    (kv : nat * T) : list (nat * T) :=
  match idf_diag !! kv.1 with
  | Some w => if dt_nonzero w then add_to_sums kv.1 (dt_mul kv.2 w) sums else sums
  | None => sums
  end.

(** Line 147 on one row: the product with [idf_diag] adds, for each stored
    entry of the row, its product with the diagonal to the sum of its
    column; the row of the product lists the columns from the one met last
    to the one met first, without the sums that are zero. *)
Definition idf_scale_row (idf_diag : list T) (row : list (nat * T)) : list (nat * T) :=
  filter (fun ks => dt_nonzero ks.2) (reverse (foldl (idf_scale_step idf_diag) [] row)).

(** [norm(X_tfidf, axis=1)] on one row: [abs(x)] puts the matrix in
    canonical format first, which sorts the column indices of each row;
    the squares of the absolute values are added ([np.add.reduceat], in
    the dtype of the matrix; a row that stores nothing has sum zero), and
    the square root of the sum is a float64. *)
Definition row_norm (row : list (nat * T)) : float :=
  let squares := (fun v => dt_mul (dt_abs v) (dt_abs v)) <$> (sort_indices row).*2 in
  let total := match squares with
               | [] => dt_zero
               | first :: others => dt_add_reduce first others
               end in
  PrimFloat.sqrt (dt_to_float64 total).

(** Line 148 on one row: [X_tfidf.T / norms] multiplies the stored entries
    of row [i], sorted by [norm], by the reciprocal of [norms[i]], whatever
    the norm is; the products are float64. *)
Definition divide_row (row : list (nat * T)) (norm : float)
    : list (nat * float) * list fp_error :=
  let '(recip, errs) := np_true_divide 1 norm in
  ((fun kv => (kv.1, (dt_to_float64 kv.2 * recip)%float)) <$> sort_indices row, errs).

(** Line 149 on one row: the conversion to [X.dtype]. *)
Definition astype_row (row : list (nat * float)) : list (nat * T) :=
  (fun kv => (kv.1, dt_of_float64 kv.2)) <$> row.

(** [np.log] on float64 *)
Variable np_log : float -> float.

(** Lines 134-138: [df.astype(X.dtype)], [df += 1], [n_samples += 1] and
    [idf = np.log(n_samples / df) + 1], a float64 array whatever the dtype
    of [df]. *)
Definition smooth_idf (n_samples : nat) (df : list nat) : list float :=
  let df := (fun d => dt_add (dt_of_intp d) dt_one) <$> df in
  let n_samples := (n_samples + 1)%nat in
  (fun d => np_log (float_of_nat n_samples / dt_to_float64 d) + 1)%float <$> df.

(** Lines 140-146: the diagonal of [idf_diag] holds the first [n_features]
    entries of [idf], converted to [X.dtype]. *)
Definition idf_diagonal (idf : list float) (n_features : nat) : list T :=
  dt_of_float64 <$> take n_features idf.

(** Lines 147-149 on the rows of [X]: the rows of the result and the
    floating-point errors signalled by the division. *)
Definition tfidf_rows (idf_diag : list T) (rows : list (list (nat * T)))
    : list (list (nat * T)) * list fp_error :=
  let X_tfidf := idf_scale_row idf_diag <$> rows in
  let divided := (fun row => divide_row row (row_norm row)) <$> X_tfidf in
  (astype_row <$> divided.*1, concat divided.*2).

End Transformer.

Section TfIdf.

Variable np_log : float -> float.

Definition idf_vector (X : csr_matrix) : list float :=
  smooth_idf (T := float) np_log (fst (shape X)) (document_frequency X).

(** [X * idf_diag], as rows *)
Definition idf_scaled_rows (X : csr_matrix) : list (list (nat * float)) :=
  idf_scale_row (idf_diagonal (idf_vector X) (snd (shape X))) <$> csr_rows X.

Definition tfidf_csr (X : csr_matrix) : csr_matrix * list fp_error :=
  let idf_diag := idf_diagonal (idf_vector X) (snd (shape X)) in
  let result := tfidf_rows idf_diag (csr_rows X) in
  (csr_of_rows result.1 (shape X), result.2).

(** The transformed matrix together with the floating-point errors
    signalled by the division of line 148. *)
Definition tfidf_transformer_np (X : matrix) : csr_matrix * list fp_error :=
  match X with
  | NdArray rows => tfidf_csr (csr_of_dense rows)
  | Sparse X => tfidf_csr X
  end.

Definition tfidf_transformer (X : matrix) : csr_matrix :=
  (tfidf_transformer_np X).1.

Definition tfidf_fp_errors (X : matrix) : list fp_error :=
  (tfidf_transformer_np X).2.

(** The same lines at dtype int64. *)
Definition idf_vector_int64 (X : csr_matrix_int64) : list float :=
  smooth_idf (T := Z) np_log (fst (shape_int64 X)) (document_frequency_int64 X).

Definition idf_diag_int64 (X : csr_matrix_int64) : list Z :=
  idf_diagonal (idf_vector_int64 X) (snd (shape_int64 X)).

Definition idf_scaled_rows_int64 (X : csr_matrix_int64) : list (list (nat * Z)) :=
  idf_scale_row (idf_diag_int64 X) <$> csr_rows_int64 X.

Definition tfidf_csr_int64 (X : csr_matrix_int64) : csr_matrix_int64 * list fp_error :=
  let result := tfidf_rows (idf_diag_int64 X) (csr_rows_int64 X) in
  (csr_of_rows_int64 result.1 (shape_int64 X), result.2).

Definition tfidf_transformer_int64 (X : matrix_int64) : csr_matrix_int64 :=
  match X with
  | NdArray_int64 rows => (tfidf_csr_int64 (csr_of_dense_int64 rows)).1
  | Sparse_int64 X => (tfidf_csr_int64 X).1
  end.

End TfIdf.

(** ** [cosine_similarity] (lines 153-191) *)

(** [norm(X)] with no axis: the Frobenius norm of the whole matrix, one
    number. *)
Definition frobenius_norm (X : csr_matrix) : float :=
  PrimFloat.sqrt (sum_squares (data X)).

(** [X / s] for a number [s]: the stored values times [1. / s]. *)
Definition divide_scalar (X : csr_matrix) (s : float) : csr_matrix :=
  let recip := (np_true_divide 1 s).1 in
  CSR ((fun v => v * recip)%float <$> data X) (indices X) (indptr X) (shape X).

(** One entry of [A @ B.T]: the products over the columns stored in both
    rows, summed along the row of [A]. *)
Definition sparse_dot (r1 r2 : list (nat * float)) : float :=
  foldl (fun acc kv =>
           match assoc_lookup kv.1 r2 with
           | Some w => (acc + kv.2 * w)%float
           | None => acc
           end) 0%float r1.

(** The entries of [A @ B.T] that the product stores. *)
Definition matmul_transposed (A B : csr_matrix) : list (list (nat * float)) :=
  (fun r1 => filter (fun js => nonzero js.2)
               (enumerate (sparse_dot r1 <$> csr_rows B))) <$> csr_rows A.

(** [Y = None] is the call with [Y] omitted (or with [X] itself passed
    again); [Some Y] is a call with another matrix.  The result is the one
    of the default [dense_output=True]: [similarity.toarray()]. *)
Definition cosine_similarity (X : csr_matrix) (Y : option csr_matrix)
    : result (list (list float)) :=
  let X_normalized := divide_scalar X (frobenius_norm X) in
  let Y_normalized :=
    match Y with
    | None => X_normalized
    | Some Y => divide_scalar Y (frobenius_norm Y)
    end in
  if negb (snd (shape X_normalized) =? snd (shape Y_normalized))%nat
  then Raise (ValueError "dimension mismatch")
  else
    let similarity :=
      csr_of_rows (matmul_transposed X_normalized Y_normalized)
        (fst (shape X_normalized), fst (shape Y_normalized)) in
    Ok (toarray similarity).

(** ** The recommender object *)

(** The values [n_examples] can hold. *)
Inductive pyval : Type :=
| PyInt (z : Z)
| PyBool (b : bool)
| PyFloat (f : float)
| PyStr (s : string)
| PyNone.

(** [isinstance(v, numbers.Integral)] *)
Definition is_integral (v : pyval) : bool :=
  match v with
  | PyInt _ | PyBool _ => true
  | _ => false
  end.

(** The integer an [Integral] value stands for. *)
Definition int_value (v : pyval) : Z :=
  match v with
  | PyInt z => z
  | PyBool b => if b then 1 else 0
  | _ => 0
  end.

(** [file_names_] and [similarity_matrix_] exist once [fit] has set them. *)
Record ExampleRecommender : Type := Recommender {
  n_examples : pyval;
  tokenizer : string;
  file_names_ : option (list string);
  similarity_matrix_ : option (list (list float))
}.

(** [__init__] (lines 52-54) *)
Definition init (n_examples : pyval) (tokenizer : string) : ExampleRecommender :=
  Recommender n_examples tokenizer None None.

(** The instance and the files read so far, in order. *)
Record world : Type := World {
  self : ExampleRecommender;
  files_read : list string
}.

Record py (A : Type) : Type := Py { run : world -> result A * world }.
Arguments Py {A} run.
Arguments run {A} p w.

#[global] Instance py_ret : MRet py := fun _ a => Py (fun w => (Ok a, w)).
#[global] Instance py_bind : MBind py := fun _ _ k m =>
  Py (fun w =>
        match run m w with
        | (Ok a, w') => run (k a) w'
        | (Raise e, w') => (Raise e, w')
        end).

Definition py_raise {A} (e : exn) : py A := Py (fun w => (Raise e, w)).

Definition py_lift {A} (r : result A) : py A := Py (fun w => (r, w)).

Definition get_self : py ExampleRecommender := Py (fun w => (Ok (self w), w)).

Definition set_similarity_matrix_ (m : list (list float)) : py unit :=
  Py (fun w =>
        let s := self w in
        (Ok tt, World (Recommender (n_examples s) (tokenizer s) (file_names_ s) (Some m))
                      (files_read w))).

Definition set_file_names_ (names : list string) : py unit :=
  Py (fun w =>
        let s := self w in
        (Ok tt, World (Recommender (n_examples s) (tokenizer s) (Some names)
                         (similarity_matrix_ s))
                      (files_read w))).

Definition known_tokenizers : list string := ["raw"; "backrefs"].

Section Fit.

Variable np_log : float -> float.

(** [Path(fname).read_text()] on the file system of the run *)
Variable read_text : string -> result string.

Definition path_read_text (fname : string) : py string :=
  Py (fun w => (read_text fname, World (self w) (files_read w ++ [fname]))).

(** Lines 218-240: [counts_matrix] is bound on the ["raw"] branch only. *)
Definition fit_counts_matrix (tokenizer : string) (file_names : list string)
    : py (option csr_matrix) :=
  if String.eqb tokenizer "raw" then
    freqs ← mapM (fun fname =>
                    text ← path_read_text fname;
                    py_lift (token_freqs text)) file_names;
    counts_matrix ← py_lift (dict_vectorizer freqs);
    mret (Some counts_matrix)
  else mret None.

(** Reading a local variable that no assignment has bound. *)
Definition read_local {A} (name : string) (v : option A) : py A :=
  match v with
  | Some a => mret a
  | None => py_raise (UnboundLocalError name)
  end.

(** [fit] (lines 193-247).  The message of the first error ends with the
    rendering of the set of known tokenizers, left out here. *)
Definition fit (file_names : list string) : py unit :=
  s ← get_self;
  let n_examples := n_examples s in
  if negb (bool_decide (tokenizer s ∈ known_tokenizers)) then
    py_raise (ValueError ("Unknown tokenizer " ++ tokenizer s ++ ". "))
  else if negb (is_integral n_examples) then
    py_raise (ValueError "n_examples must be an integer")
  else if (int_value n_examples <? 1)%Z then
    py_raise (ValueError "n_examples must be strictly positive")
  else
    counts_matrix ← fit_counts_matrix (tokenizer s) file_names;
    X ← read_local "counts_matrix" counts_matrix;
    let tfidf_matrix := tfidf_transformer np_log (Sparse X) in
    similarity ← py_lift (cosine_similarity (tfidf_transformer np_log (Sparse X)) None);
    _ ← set_similarity_matrix_ similarity;
    set_file_names_ file_names.

End Fit.

(** ** [predict] (lines 250-270) *)

(** [l.index(x)]: the first position of [x] *)
Fixpoint list_index (x : string) (l : list string) : option nat :=
  match l with
  | [] => None
  | y :: l' => if String.eqb x y then Some 0%nat else S <$> list_index x l'
  end.

(** Where a slice bound falls in a list of [len] items. *)
Definition slice_bound (len i : Z) : Z :=
  if (i <? 0)%Z then Z.max 0 (len + i) else Z.min i len.

(** [l[start:stop]] *)
Definition py_slice {A} (l : list A) (start stop : Z) : list A :=
  let len := Z.of_nat (length l) in
  let lo := slice_bound len start in
  let hi := slice_bound len stop in
  take (Z.to_nat (hi - lo)) (drop (Z.to_nat lo) l).

(** A pair [(position, score)] of [enumerate(row)]. *)
Definition item : Type := nat * float.

(** Where [x], which stood before every item of [l], lands among them:
    behind the items of strictly greater score. *)
Fixpoint insert_reverse (x : item) (l : list item) : list item :=
  match l with
  | [] => [x]
  | y :: l' =>
      if (x.2 <? y.2)%float then y :: insert_reverse x l' else x :: y :: l'
  end.

(** [sorted(items, key=lambda x: x[1], reverse=True)]: greatest score first.
    The sort is stable, also when reversed: items that compare equal keep
    the order they had.  (Scores that are NaN compare with nothing, and the
    order Python returns then depends on its merge strategy; the model is
    meant for rows without NaN.) *)
Definition sorted_reverse (items : list item) : list item :=
  foldr insert_reverse [] items.

(** [self.n_examples + 1] as a slice bound *)
Definition slice_stop (n_examples : pyval) : result Z :=
  match n_examples with
  | PyInt z => Ok (z + 1)
  | PyBool b => Ok ((if b then 1 else 0) + 1)
  | PyFloat _ =>
      Raise (TypeError "slice indices must be integers or None or have an __index__ method")
  | PyStr _ => Raise (TypeError "can only concatenate str (not 'int') to str")
  | PyNone => Raise (TypeError "unsupported operand type(s) for +: 'NoneType' and 'int'")
  end.

Definition read_attribute {A} (name : string) (v : option A) : result A :=
  match v with
  | Some a => Ok a
  | None => Raise (AttributeError name)
  end.

Definition getitem {A} (what : string) (l : list A) (i : nat) : result A :=
  match l !! i with
  | Some a => Ok a
  | None => Raise (IndexError what)
  end.

(** Line 265: the ranking of the row of the query. *)
Definition sorted_items (row : list float) : list item :=
  sorted_reverse (enumerate row).

Definition predict (self : ExampleRecommender) (file_name : string)
    : result (list string) :=
  file_names ← read_attribute "file_names_" (file_names_ self);
  item_id ← match list_index file_name file_names with
            | Some i => Ok i
            | None => Raise (ValueError ("'" ++ file_name ++ "' is not in list"))
            end;
  similarity_matrix ← read_attribute "similarity_matrix_" (similarity_matrix_ self);
  row ← getitem "index out of bounds" similarity_matrix item_id;
  let sorted_items := sorted_items row in
  stop ← slice_stop (n_examples self);
  let top_k_items := (py_slice sorted_items 1 stop).*1 in
  mapM (getitem "list index out of range" file_names) top_k_items.

(** * [_write_recommendations] *)

(** What the function raises: what [predict] and indexing raise, the
    [KeyError] of the configuration, and the exceptions [E] of [open] and
    of the functions of the other modules. *)
Inductive write_exn (E : Type) : Type :=
| Exn (e : exn)
| KeyError (key : string)
| External (e : E).

Arguments Exn {E} e.
Arguments KeyError {E} key.
Arguments External {E} e.

(** [open(path, "w")]: the file is created, or emptied. *)
Definition open_w (path : string) (files : gmap string string) : gmap string string :=
  <[path := ""]> files.

(** [ex_file.write(s)] *)
Definition file_write (path s : string) (files : gmap string string) : gmap string string :=
  <[path := default "" (files !! path) +:+ s]> files.

Definition newline : string := String "010"%char "".

(** ["\n\n.. rubric:: Related examples\n"] *)
Definition rubric : string :=
  newline +:+ newline +:+ ".. rubric:: Related examples" +:+ newline.

Section WriteRecommendations.

Context {E : Type}.

(** [backreferences.py] *)
Variable THUMBNAIL_PARENT_DIV : string.
Variable THUMBNAIL_PARENT_DIV_CLOSE : string.
Variable _thumbnail_div : string -> string -> string -> string -> string -> E + string.

(** [py_source_parser.py]: the blocks of a file, a label and a content each *)
Variable split_code_and_text_blocks : string -> E + list (string * string).

(** [gen_rst.py] *)
Variable extract_intro_and_title : string -> string -> E + (string * string).

(** [pathlib]: [Path(p).parent], [Path(p).stem], [Path(p).name] and [a / b] *)
Variable path_parent : string -> string.
Variable path_stem : string -> string.
Variable path_name : string -> string.
Variable path_join : string -> string -> string.

(** The exception of [open(path, "w")] for a path that cannot be opened. *)
Variable open_error : string -> option E.

(** [f"{path_fname.parent / path_fname.stem}.recommendations"] *)
Definition recommendation_fname (fname : string) : string :=
  path_join (path_parent fname) (path_stem fname) +:+ ".recommendations".

(** The argument of the [write] of lines 300-309, for one example. *)
Definition example_thumbnail (fname : string) (gallery_conf : gmap string string)
    (example_fname : string) : write_exn E + string :=
  match split_code_and_text_blocks example_fname with
  | inl e => inl (External e)
  | inr script_blocks =>
      match script_blocks with
      | [] => inl (Exn (IndexError "list index out of range"))
      | block :: _ =>
          match extract_intro_and_title fname block.2 with
          | inl e => inl (External e)
          | inr (intro, title) =>
              match gallery_conf !! "src_dir" with
              | None => inl (KeyError "src_dir")
              | Some src_dir =>
                  match _thumbnail_div (path_parent example_fname) src_dir
                          (path_name example_fname) intro title with
                  | inl e => inl (External e)
                  | inr div => inr div
                  end
              end
          end
      end
  end.

(** The loop of lines 294-309 over the file opened at [ex_file]. *)
Fixpoint write_examples (fname : string) (gallery_conf : gmap string string)
    (ex_file : string) (recommended_examples : list string) (files : gmap string string)
    : option (write_exn E) * gmap string string :=
  match recommended_examples with
  | [] => (None, files)
  | example_fname :: rest =>
      match example_thumbnail fname gallery_conf example_fname with
      | inl e => (Some e, files)
      | inr div =>
          write_examples fname gallery_conf ex_file rest (file_write ex_file div files)
      end
  end.

(** The exception raised, if any, and the files after the call; leaving the
    [with] block closes the file, also when the block raises. *)
Definition _write_recommendations (recommender : ExampleRecommender) (fname : string)
    (gallery_conf : gmap string string) (files : gmap string string)
    : option (write_exn E) * gmap string string :=
  let recommendation_fname := recommendation_fname fname in
  match predict recommender fname with
  | Raise e => (Some (Exn e), files)
  | Ok recommended_examples =>
      match open_error recommendation_fname with
      | Some e => (Some (External e), files)
      | None =>
          let files := open_w recommendation_fname files in
          let files := file_write recommendation_fname rubric files in
          let files := file_write recommendation_fname THUMBNAIL_PARENT_DIV files in
          match write_examples fname gallery_conf recommendation_fname
                  recommended_examples files with
          | (Some e, files) => (Some e, files)
          | (None, files) =>
              (None, file_write recommendation_fname THUMBNAIL_PARENT_DIV_CLOSE files)
          end
      end
  end.

End WriteRecommendations.

(** * Notions used in the statements *)

(** The distinct keys across all mappings. *)
Definition vocabulary (rows : list (gmap string Z)) : gset string :=
  ⋃ (dom <$> rows).

(** A score that is a number. *)
Definition not_nan (x : float) : Prop := PrimFloat.is_nan x = false.

(** [a] is ranked before [b]: its score is strictly greater, or the scores
    are equal and its position in the corpus is smaller. *)
Definition ranked_before (a b : item) : Prop :=
  (b.2 <? a.2)%float = true \/ ((a.2 =? b.2)%float = true /\ (a.1 < b.1)%nat).

(** The number of rows whose entry in column [j] is not zero. *)
Definition rows_with_nonzero (X : csr_matrix) (j : nat) : nat :=
  length (filter (fun i => nonzero (csr_entry X i j) = true) (seq 0 (fst (shape X)))).

(** The rows cut out of a list of stored entries by a list of offsets. *)
Fixpoint rows_between {A} (zs : list A) (ptr : list nat) : list (list A) :=
  match ptr with
  | lo :: ((hi :: _) as ptr') => take (hi - lo) (drop lo zs) :: rows_between zs ptr'
  | _ => []
  end.

(** The error of the first step of the list comprehension of line 221:
    the one of reading the file, or else the one of the tokenizer. *)
Definition first_file_error (read_text : string -> result string) (fname : string) : exn :=
  match read_text fname with
  | Ok _ => NameError "dict_freqs"
  | Raise e => e
  end.

(** The entry [m[i][j]] of a dense matrix, when there is one. *)
Definition matrix_entry (m : list (list float)) (i j : nat) : option float :=
  r ← m !! i; r !! j.

(** The column indices of a row increase strictly ([has_sorted_indices]). *)
Definition sorted_row (row : list (nat * float)) : Prop :=
  StronglySorted (fun a b : nat * float => (a.1 < b.1)%nat) row.

(** One step of the sum of [sparse_dot]. *)
Definition dot_step (r2 : list (nat * float)) (acc : float) (kv : nat * float) : float :=
  match assoc_lookup kv.1 r2 with
  | Some w => (acc + kv.2 * w)%float
  | None => acc
  end.

(** [0.0] for a product that is not stored. *)
Definition stored_or_zero (d : float) : float := if nonzero d then d else 0%float.

(** [row[j] != 0], false where the row has no entry [j]. *)
Definition nonzero_at (j : nat) (row : list float) : bool :=
  match row !! j with
  | Some x => nonzero x
  | None => false
  end.

(** The text of a file written piece by piece. *)
Definition joined (pieces : list string) : string := foldr String.append "" pieces.

(** * Example inputs *)

(** A fitted model over three documents. *)
Definition three_documents : ExampleRecommender :=
  Recommender (PyInt 2) "raw" (Some ["a.py"; "b.py"; "c.py"])
    (Some [[1; 0.5; 0.5]; [0.5; 1; 0.25]; [0.5; 0.25; 1]]%float).

(** The counts of "cat dog dog", "dog bird", "" and "cat cat bird" over the
    vocabulary bird, cat, dog. *)
Definition four_documents : csr_matrix :=
  CSR [1; 2; 1; 1; 1; 2]%float [1; 2; 0; 2; 0; 1]%nat [0; 2; 4; 4; 6]%nat (4, 3)%nat.

(** The counts of "cat" and of an empty document. *)
Definition cat_and_empty : csr_matrix :=
  CSR [1]%float [0]%nat [0; 1; 1]%nat (2, 1)%nat.

(** Two rows that are not unit vectors: (3, 0) and (0, 4). *)
Definition rows_3_4 : csr_matrix :=
  CSR [3; 4]%float [0; 1]%nat [0; 1; 2]%nat (2, 2)%nat.

(** The TF-IDF rows of two documents with the same text: twice (1). *)
Definition twin_rows : csr_matrix :=
  CSR [1; 1]%float [0; 0]%nat [0; 1; 2]%nat (2, 1)%nat.

(** One entry so small that its square underflows to zero. *)
Definition tiny_entry : csr_matrix :=
  CSR [0x1p-600]%float [0]%nat [0; 1]%nat (1, 1)%nat.

(** A file system without files. *)
Definition no_files (path : string) : result string := Raise (OSError path).

(** Statements about the transformer hold for every function put in the
    place of [np.log]; the examples take this one. *)
Definition log_stand_in (x : float) : float := (x - 1)%float.

(** Stand-ins for the functions of the other modules: a file of one block,
    the introduction and the title taken from the arguments, and a
    thumbnail for every example but ["c.py"]. *)
Definition one_block (fname : string) : unit + list (string * string) :=
  inr [("text", fname)].

Definition intro_and_title (fname docstring : string) : unit + (string * string) :=
  inr (docstring, fname).

Definition div_but_c (target_dir src_dir fname intro title : string) : unit + string :=
  if String.eqb fname "c.py" then inl tt else inr ("<" +:+ fname +:+ ">").

(** [pathlib] on the name of a [.py] file without a directory. *)
Definition parent_of_bare (p : string) : string := ".".
Definition stem_of_py (p : string) : string := substring 0 (String.length p - 3) p.
Definition name_of_bare (p : string) : string := p.
Definition join_cwd (a b : string) : string := b.

Definition always_opens (path : string) : option unit := None.

Definition src_dir_conf : gmap string string := {["src_dir" := "/src"]}.

(** The counts of "cat dog dog", "dog bird" and "cat cat bird" over the
    vocabulary bird, cat, dog, as the int64 matrix that
    [csr_matrix((data, indices, indptr))] builds from Python integers. *)
Definition worked_example_counts : csr_matrix_int64 :=
  CSR_int64 [1; 2; 1; 1; 1; 2] [1; 2; 0; 2; 0; 1]%nat [0; 2; 4; 6]%nat (3, 3)%nat.

(** * Properties *)

(** ** The tokenizer *)

Lemma resolve_dict_freqs :
  resolve_global "dict_freqs" = Raise (NameError "dict_freqs").
Proof. reflexivity. Qed.

(** [dict_freqs] is an attribute of the class, not a module global. *)
Lemma dict_freqs_is_class_attribute :
  "dict_freqs" ∈ class_attributes /\ "dict_freqs" ∉ module_globals.
Proof. split; [set_solver | ]. apply (bool_decide_eq_false_1 _). reflexivity. Qed.

(** C3: for every document text, [token_freqs] raises [NameError]: the
    callee [dict_freqs] is named without the class, so no mapping is ever
    returned. *)
Theorem token_freqs_raises (doc : string) :
  token_freqs doc = Raise (NameError "dict_freqs").
Proof. unfold token_freqs. rewrite resolve_dict_freqs. reflexivity. Qed.

Lemma count_token_lookup (freq : gmap string Z) (tok t : string) :
  count_token freq tok !! t =
  if decide (tok = t) then Some (default 0 (freq !! tok) + 1) else freq !! t.
Proof.
  unfold count_token. destruct (decide (tok = t)) as [->|Hne].
  - by rewrite lookup_insert_eq.
  - by rewrite lookup_insert_ne.
Qed.

Lemma foldl_count_token (doc : list string) (freq : gmap string Z) (t : string) :
  default 0 (foldl count_token freq doc !! t) =
  default 0 (freq !! t) + Z.of_nat (count_occ string_dec doc t).
Proof.
  revert freq. induction doc as [|tok doc IH]; intros freq; simpl.
  - lia.
  - rewrite IH, count_token_lookup.
    destruct (decide (tok = t)) as [->|Hne].
    + destruct (string_dec t t); [simpl; lia | congruence].
    + destruct (string_dec tok t); [congruence | simpl; lia].
Qed.

(** Reached through the class, the body of [token_freqs] counts the
    occurrences of each lower-cased token. *)
Lemma token_freqs_qualified_counts (doc t : string) :
  default 0 (token_freqs_qualified doc !! t) =
  Z.of_nat (count_occ string_dec (lower <$> re_findall_word doc) t).
Proof.
  unfold token_freqs_qualified, dict_freqs.
  rewrite foldl_count_token, lookup_empty. simpl. lia.
Qed.

(** ** The vectorizer *)

Lemma elem_of_collect_feature_names (rows : list (gmap string Z)) (x : string) :
  x ∈ collect_feature_names rows <-> x ∈ vocabulary rows.
Proof.
  unfold collect_feature_names, vocabulary.
  rewrite list_elem_of_bind, elem_of_union_list. split.
  - intros (row & Hx & Hrow). exists (dom row). split.
    + apply list_elem_of_fmap. eauto.
    + apply list_elem_of_fmap in Hx as ([k v] & -> & Hkv).
      apply elem_of_map_to_list in Hkv. apply elem_of_dom. eauto.
  - intros (D & HD & Hx). apply list_elem_of_fmap in HD as (row & -> & Hrow).
    exists row. split; [|done].
    apply elem_of_dom in Hx as [v Hv].
    apply list_elem_of_fmap. exists (x, v). split; [done|].
    by apply elem_of_map_to_list.
Qed.

Lemma length_sorted_feature_names (rows : list (gmap string Z)) :
  length (sorted_feature_names rows) = size (vocabulary rows).
Proof.
  unfold sorted_feature_names.
  rewrite (Permutation_length (merge_sort_Permutation _ _)).
  replace (list_to_set (collect_feature_names rows) : gset string)
    with (vocabulary rows); [reflexivity|].
  apply set_eq. intros x.
  rewrite elem_of_list_to_set. symmetry. apply elem_of_collect_feature_names.
Qed.

(** C1: whatever the mappings are, [dict_vectorizer] returns a matrix with
    no row at all: its shape is (0, number of distinct keys) and its
    offsets are [[0]], because the loop over the rows runs over the list
    that line 96 has just emptied. *)
Theorem dict_vectorizer_no_rows (rows : list (gmap string Z)) :
  dict_vectorizer rows = Ok (CSR [] [] [0%nat] (0%nat, size (vocabulary rows))).
Proof.
  unfold dict_vectorizer. simpl.
  by rewrite length_sorted_feature_names.
Qed.

(** One document with one token: the docstring's shape is (1, 1). *)
Lemma dict_vectorizer_one_document :
  shape <$> (match dict_vectorizer [{["a" := 1]}] with Ok X => Some X | Raise _ => None end)
  = Some (0%nat, 1%nat).
Proof. vm_compute. reflexivity. Qed.

Lemma vectorizer_features_ok (m : gmap string Z) (acc : list Z * list nat)
    (l : list (nat * string)) :
  exists acc', fold_result (vectorizer_feature (RowMapping m)) acc l = Ok acc'.
Proof.
  revert acc. induction l as [|[j name] l IH]; intros [values idx]; simpl; [eauto|].
  destruct (m !! name); simpl; apply IH.
Qed.

Lemma vectorizer_row_ok (feature_names : list string) (m : gmap string Z)
    (values : list Z) (idx ptr : list nat) :
  exists values1 idx1,
    vectorizer_row feature_names (values, idx, ptr) (RowMapping m)
    = Ok (values1, idx1, ptr ++ [length idx1]).
Proof.
  unfold vectorizer_row.
  destruct (vectorizer_features_ok m (values, idx) (enumerate feature_names))
    as [[values1 idx1] E].
  rewrite E. by exists values1, idx1.
Qed.

Lemma vectorizer_rows_ok (feature_names : list string) (rows : list (gmap string Z))
    (values : list Z) (idx ptr : list nat) :
  exists values' idx' ptr',
    fold_result (vectorizer_row feature_names) (values, idx, ptr) (RowMapping <$> rows)
    = Ok (values', idx', ptr')
    /\ length ptr' = (length ptr + length rows)%nat.
Proof.
  revert values idx ptr. induction rows as [|m rows IH]; intros values idx ptr.
  - exists values, idx, ptr. split; [done | simpl; lia].
  - destruct (vectorizer_row_ok feature_names m values idx ptr) as (values1 & idx1 & E).
    destruct (IH values1 idx1 (ptr ++ [length idx1])) as (v' & i' & p' & E' & Hlen).
    exists v', i', p'. split.
    + rewrite fmap_cons.
      change (fold_result (vectorizer_row feature_names) (values, idx, ptr)
                (RowMapping m :: (RowMapping <$> rows)))
        with (s' ← vectorizer_row feature_names (values, idx, ptr) (RowMapping m);
              fold_result (vectorizer_row feature_names) s' (RowMapping <$> rows)).
      rewrite E. exact E'.
    + rewrite Hlen, length_app. simpl. lia.
Qed.

(** Run over the mappings themselves, the loop of lines 97-103 builds one
    row per document, as the docstring says. *)
Lemma vectorize_mappings_shape (rows : list (gmap string Z)) :
  exists X, vectorize_mappings rows = Ok X
            /\ shape X = (length rows, size (vocabulary rows)).
Proof.
  unfold vectorize_mappings.
  destruct (vectorizer_rows_ok (sorted_feature_names rows) rows [] [] [0%nat])
    as (v' & i' & p' & E & Hlen).
  rewrite E. simpl. eexists. split; [reflexivity|]. simpl.
  rewrite Hlen, length_sorted_feature_names. f_equal. simpl. lia.
Qed.

(** ** [fit]: validation *)

Section FitProperties.

Variable np_log : float -> float.
Variable read_text : string -> result string.

(** C9: when the tokenizer is not a known one, or [n_examples] is not an
    integer, or it is below 1, [fit] raises [ValueError] at once: the
    instance is left as it was and no file has been read. *)
Theorem fit_invalid_configuration (file_names : list string) (w : world) :
  tokenizer (self w) ∉ known_tokenizers
  \/ is_integral (n_examples (self w)) = false
  \/ (int_value (n_examples (self w)) < 1)%Z ->
  exists msg, run (fit np_log read_text file_names) w = (Raise (ValueError msg), w).
Proof.
  intros H. unfold fit. cbn.
  destruct (bool_decide (tokenizer (self w) ∈ known_tokenizers)) eqn:Hk; cbn.
  2: { eexists; reflexivity. }
  destruct (is_integral (n_examples (self w))) eqn:Hi; cbn.
  2: { eexists; reflexivity. }
  destruct (int_value (n_examples (self w)) <? 1)%Z eqn:Hv; cbn.
  { eexists; reflexivity. }
  exfalso. apply bool_decide_eq_true in Hk. apply Z.ltb_ge in Hv.
  destruct H as [H | [H | H]]; [done | done | lia].
Qed.

(** C10: with the tokenizer ["backrefs"], [fit] always raises, leaving
    the instance as it was and reading no file; when [n_examples] is
    valid the configuration is accepted and the error is the read of
    [counts_matrix], which that branch never binds. *)
Theorem fit_backrefs_fails (file_names : list string) (w : world) :
  tokenizer (self w) = "backrefs" ->
  (exists e, run (fit np_log read_text file_names) w = (Raise e, w))
  /\ (is_integral (n_examples (self w)) = true ->
      (1 <= int_value (n_examples (self w)))%Z ->
      run (fit np_log read_text file_names) w
      = (Raise (UnboundLocalError "counts_matrix"), w)).
Proof.
  intros Ht. unfold fit. cbn. rewrite Ht. cbn.
  destruct (is_integral (n_examples (self w))) eqn:Hi; cbn.
  2: { split; [eexists; reflexivity | discriminate]. }
  destruct (int_value (n_examples (self w)) <? 1)%Z eqn:Hv; cbn.
  { split; [eexists; reflexivity | ]. intros _ Hge. apply Z.ltb_lt in Hv. lia. }
  destruct w as [s fr]. cbn. split; [eexists; reflexivity | reflexivity].
Qed.

End FitProperties.

(** ** The order of float64 scores *)

Ltac sf_compare_cases :=
  repeat match goal with
         | H : context [Pos.compare_cont Eq ?a ?b] |- _ =>
             change (Pos.compare_cont Eq a b) with (Pos.compare a b) in H
         | |- context [Pos.compare_cont Eq ?a ?b] =>
             change (Pos.compare_cont Eq a b) with (Pos.compare a b)
         end;
  repeat match goal with
         | H : context [Z.compare ?a ?b] |- _ => destruct (Z.compare_spec a b)
         | |- context [Z.compare ?a ?b] => destruct (Z.compare_spec a b)
         | H : context [Pos.compare ?a ?b] |- _ => destruct (Pos.compare_spec a b)
         | |- context [Pos.compare ?a ?b] => destruct (Pos.compare_spec a b)
         end;
  simpl in *; subst; try congruence; try lia.

Lemma SFcompare_total (a b : spec_float) :
  a <> S754_nan -> b <> S754_nan -> exists c, SFcompare a b = Some c.
Proof. destruct a, b; simpl; intros; try congruence; eauto. Qed.

Lemma SFcompare_antisym (a b : spec_float) (c : comparison) :
  SFcompare a b = Some c -> SFcompare b a = Some (CompOpp c).
Proof.
  destruct a as [sa|sa| |sa ma ea], b as [sb|sb| |sb mb eb]; simpl;
    intros H; try discriminate; injection H as <-;
    repeat match goal with s : bool |- _ => destruct s end; simpl; try reflexivity;
    sf_compare_cases.
Qed.

Lemma SFcompare_lt_trans (a b c : spec_float) :
  SFcompare a b = Some Lt -> SFcompare b c = Some Lt -> SFcompare a c = Some Lt.
Proof.
  destruct a as [sa|sa| |sa ma ea], b as [sb|sb| |sb mb eb], c as [sc|sc| |sc mc ec];
    simpl; intros H1 H2; try discriminate;
    repeat match goal with s : bool |- _ => destruct s end; simpl in *;
    try discriminate; try reflexivity; sf_compare_cases.
Qed.

Lemma SFcompare_eq_l (a b c : spec_float) :
  SFcompare a b = Some Eq -> c <> S754_nan -> SFcompare a c = SFcompare b c.
Proof.
  destruct a as [sa|sa| |sa ma ea], b as [sb|sb| |sb mb eb], c as [sc|sc| |sc mc ec];
    simpl; intros H1 H2; try congruence;
    repeat match goal with s : bool |- _ => destruct s end; simpl in *;
    try discriminate; try reflexivity; sf_compare_cases.
Qed.

Lemma not_nan_Prim2SF (x : float) : not_nan x -> Prim2SF x <> S754_nan.
Proof.
  unfold not_nan, PrimFloat.is_nan. rewrite FloatAxioms.eqb_spec. unfold SFeqb.
  intros H E. rewrite E in H. discriminate.
Qed.

Lemma ltb_true_compare (x y : float) :
  (x <? y)%float = true <-> SFcompare (Prim2SF x) (Prim2SF y) = Some Lt.
Proof.
  rewrite FloatAxioms.ltb_spec. unfold SFltb.
  destruct (SFcompare (Prim2SF x) (Prim2SF y)) as [[]|]; split; congruence.
Qed.

Lemma eqb_true_compare (x y : float) :
  (x =? y)%float = true <-> SFcompare (Prim2SF x) (Prim2SF y) = Some Eq.
Proof.
  rewrite FloatAxioms.eqb_spec. unfold SFeqb.
  destruct (SFcompare (Prim2SF x) (Prim2SF y)) as [[]|]; split; congruence.
Qed.

Lemma float_ltb_trans (x y z : float) :
  (x <? y)%float = true -> (y <? z)%float = true -> (x <? z)%float = true.
Proof. rewrite !ltb_true_compare. apply SFcompare_lt_trans. Qed.

Lemma float_ltb_asym (x y : float) :
  (x <? y)%float = true -> (y <? x)%float = false.
Proof.
  rewrite ltb_true_compare. intros H. apply SFcompare_antisym in H.
  rewrite FloatAxioms.ltb_spec. unfold SFltb. by rewrite H.
Qed.

Lemma float_eqb_not_ltb (x y : float) :
  (x =? y)%float = true -> (x <? y)%float = false.
Proof.
  rewrite eqb_true_compare. intros H. rewrite FloatAxioms.ltb_spec. unfold SFltb. by rewrite H.
Qed.

Lemma float_eqb_sym (x y : float) :
  (x =? y)%float = true -> (y =? x)%float = true.
Proof.
  rewrite !eqb_true_compare. intros H. by apply SFcompare_antisym in H.
Qed.

Lemma float_not_ltb_eqb (x y : float) :
  not_nan x -> not_nan y ->
  (x <? y)%float = false -> (y <? x)%float = false -> (x =? y)%float = true.
Proof.
  intros Hx Hy. apply not_nan_Prim2SF in Hx, Hy.
  destruct (SFcompare_total _ _ Hx Hy) as [c Hc].
  pose proof (SFcompare_antisym _ _ _ Hc) as Hc'.
  rewrite !FloatAxioms.ltb_spec, FloatAxioms.eqb_spec. unfold SFltb, SFeqb. rewrite Hc, Hc'.
  destruct c; simpl; congruence.
Qed.

Lemma float_eqb_ltb_l (x y z : float) :
  (x =? y)%float = true -> not_nan z -> (x <? z)%float = (y <? z)%float.
Proof.
  rewrite eqb_true_compare. intros H Hz. apply not_nan_Prim2SF in Hz.
  rewrite !FloatAxioms.ltb_spec. unfold SFltb. by rewrite (SFcompare_eq_l _ _ _ H Hz).
Qed.

Lemma float_eqb_ltb_r (x y z : float) :
  (x =? y)%float = true -> not_nan z -> (z <? x)%float = (z <? y)%float.
Proof.
  rewrite eqb_true_compare. intros H Hz. apply not_nan_Prim2SF in Hz.
  rewrite !FloatAxioms.ltb_spec. unfold SFltb.
  pose proof (SFcompare_eq_l _ _ _ H Hz) as E.
  destruct (SFcompare (Prim2SF z) (Prim2SF x)) as [c1|] eqn:E1,
           (SFcompare (Prim2SF z) (Prim2SF y)) as [c2|] eqn:E2.
  - apply SFcompare_antisym in E1, E2. rewrite E1, E2 in E.
    destruct c1, c2; simpl in E; congruence.
  - apply SFcompare_antisym in E1. rewrite E1 in E.
    destruct (SFcompare (Prim2SF y) (Prim2SF z)) as [c|] eqn:E3; [|congruence].
    apply SFcompare_antisym in E3. congruence.
  - apply SFcompare_antisym in E2. rewrite E2 in E.
    destruct (SFcompare (Prim2SF x) (Prim2SF z)) as [c|] eqn:E3; [|congruence].
    apply SFcompare_antisym in E3. congruence.
  - reflexivity.
Qed.

Lemma float_eqb_trans (x y z : float) :
  (x =? y)%float = true -> (y =? z)%float = true -> (x =? z)%float = true.
Proof.
  rewrite !eqb_true_compare. intros H1 H2.
  rewrite (SFcompare_eq_l _ _ _ H1); [done|].
  intros E. rewrite E in H2. destruct (Prim2SF y); discriminate.
Qed.

(** ** [predict]: the ranking *)

Lemma insert_reverse_Permutation (x : item) (l : list item) :
  insert_reverse x l ≡ₚ x :: l.
Proof.
  induction l as [|y l IH]; simpl; [done|].
  destruct (x.2 <? y.2)%float; [|done].
  rewrite IH. apply Permutation_swap.
Qed.

Lemma sorted_reverse_Permutation (l : list item) : sorted_reverse l ≡ₚ l.
Proof.
  induction l as [|x l IH]; simpl; [done|].
  by rewrite insert_reverse_Permutation, IH.
Qed.

Lemma length_sorted_reverse (l : list item) : length (sorted_reverse l) = length l.
Proof. apply Permutation_length, sorted_reverse_Permutation. Qed.

Lemma length_enumerate_from {A} (s : nat) (l : list A) :
  length (enumerate_from s l) = length l.
Proof. revert s. induction l; intros; simpl; auto. Qed.

Lemma enumerate_from_bounds {A} (s : nat) (l : list A) :
  Forall (fun p => (s <= p.1 < s + length l)%nat) (enumerate_from s l).
Proof.
  revert s. induction l as [|x l IH]; intros s; simpl; constructor.
  - simpl. lia.
  - eapply Forall_impl; [apply IH|]. simpl. intros; lia.
Qed.

Lemma enumerate_from_scores (s : nat) (row : list float) :
  Forall not_nan row -> Forall (fun p : item => not_nan p.2) (enumerate_from s row).
Proof.
  intros H. revert s. induction H; intros s; simpl; constructor; auto.
Qed.

Lemma ranked_before_head (x y : item) :
  not_nan x.2 -> not_nan y.2 ->
  (x.2 <? y.2)%float = false -> (x.1 < y.1)%nat -> ranked_before x y.
Proof.
  intros Hx Hy Hlt Hxy. unfold ranked_before.
  destruct (y.2 <? x.2)%float eqn:Hyx; [by left|].
  right. split; [by apply float_not_ltb_eqb | done].
Qed.

Lemma ranked_before_trans_l (x y z : item) :
  not_nan x.2 -> not_nan y.2 -> not_nan z.2 -> (x.1 < z.1)%nat ->
  (x.2 <? y.2)%float = false ->
  ranked_before y z -> ranked_before x z.
Proof.
  intros Hx Hy Hz Hxz Hlt Hyz. unfold ranked_before in *.
  destruct (y.2 <? x.2)%float eqn:Hyx.
  - left. destruct Hyz as [Hzy | [Heq _]].
    + by eapply float_ltb_trans.
    + by rewrite <- (float_eqb_ltb_l _ _ _ Heq Hx).
  - pose proof (float_not_ltb_eqb _ _ Hx Hy Hlt Hyx) as Heq.
    destruct Hyz as [Hzy | [Heq' _]].
    + left. by rewrite (float_eqb_ltb_r _ _ _ Heq Hz).
    + right. split; [by eapply float_eqb_trans | done].
Qed.

Lemma insert_reverse_sorted (x : item) (l : list item) :
  not_nan x.2 ->
  Forall (fun y : item => not_nan y.2 /\ (x.1 < y.1)%nat) l ->
  StronglySorted ranked_before l ->
  StronglySorted ranked_before (insert_reverse x l).
Proof.
  intros Hx Hl Hs. induction Hs as [|y l Hs IH Hy]; simpl.
  - repeat constructor.
  - apply Forall_cons in Hl as [[Hyn Hxy] Hl].
    destruct (x.2 <? y.2)%float eqn:Hlt.
    + constructor; [by apply IH|].
      rewrite insert_reverse_Permutation. constructor; [by left | done].
    + constructor; [by constructor|].
      constructor.
      * by apply ranked_before_head.
      * rewrite Forall_forall in Hl, Hy. apply Forall_forall. intros z Hz.
        destruct (Hl z Hz) as [Hzn Hxz].
        by eapply (ranked_before_trans_l x y z); eauto.
Qed.

Lemma sorted_reverse_enumerate_from (s : nat) (row : list float) :
  Forall not_nan row ->
  StronglySorted ranked_before (sorted_reverse (enumerate_from s row)).
Proof.
  intros Hrow. revert s. induction Hrow as [|v row Hv Hrow IH]; intros s; simpl.
  - constructor.
  - apply insert_reverse_sorted; [done | | apply IH].
    rewrite sorted_reverse_Permutation.
    pose proof (enumerate_from_bounds (S s) row) as Hb.
    pose proof (enumerate_from_scores (S s) row Hrow) as Hn.
    rewrite Forall_forall in Hb, Hn. apply Forall_forall. intros y Hy.
    split; [by apply Hn|]. simpl. specialize (Hb y Hy). lia.
Qed.

Lemma list_index_Some (x : string) (l : list string) :
  x ∈ l -> exists i, list_index x l = Some i /\ (i < length l)%nat.
Proof.
  induction l as [|y l IH]; intros Hx; [by apply elem_of_nil in Hx|].
  simpl. destruct (String.eqb x y) eqn:E.
  - exists 0%nat. split; [done | lia].
  - apply elem_of_cons in Hx as [->|Hx]; [by rewrite String.eqb_refl in E|].
    destruct (IH Hx) as (i & -> & Hi). exists (S i). split; [done | lia].
Qed.

Lemma list_index_lt (x : string) (l : list string) (i : nat) :
  list_index x l = Some i -> (i < length l)%nat.
Proof.
  revert i. induction l as [|y l IH]; intros i; simpl; [done|].
  destruct (String.eqb x y).
  - intros [= <-]. lia.
  - destruct (list_index x l) as [j|]; simpl; [|done].
    intros [= <-]. specialize (IH j eq_refl). lia.
Qed.

Lemma mapM_getitem {A} (what : string) (l : list A) (idxs : list nat) :
  Forall (fun i => (i < length l)%nat) idxs ->
  exists out, mapM (getitem what l) idxs = Ok out /\ length out = length idxs.
Proof.
  induction 1 as [|i idxs Hi _ (out & IH & Hlen)].
  - by exists [].
  - destruct (lookup_lt_is_Some_2 l i Hi) as [a Ha].
    exists (a :: out). split; [|simpl; by rewrite Hlen].
    change (mapM (getitem what l) (i :: idxs))
      with (y ← getitem what l i; k ← mapM (getitem what l) idxs; mret (y :: k)).
    rewrite IH. unfold getitem. rewrite Ha. reflexivity.
Qed.

Lemma length_py_slice_from_1 {A} (l : list A) (z : Z) :
  (0 <= z)%Z -> (0 < length l)%nat ->
  Z.of_nat (length (py_slice l 1 (z + 1))) = Z.min z (Z.of_nat (length l) - 1).
Proof.
  intros Hz Hl. unfold py_slice, slice_bound.
  destruct (1 <? 0)%Z eqn:E1; [apply Z.ltb_lt in E1; lia|].
  destruct (z + 1 <? 0)%Z eqn:E2; [apply Z.ltb_lt in E2; lia|].
  rewrite length_take, length_drop. lia.
Qed.

Lemma py_slice_subseteq {A} (l : list A) (start stop : Z) :
  py_slice l start stop ⊆ l.
Proof.
  unfold py_slice. intros x Hx.
  apply (subseteq_take _ _), (subseteq_drop _ _) in Hx. done.
Qed.

Lemma sorted_items_positions (row : list float) :
  Forall (fun p : item => (p.1 < length row)%nat) (sorted_items row).
Proof.
  unfold sorted_items, enumerate. rewrite sorted_reverse_Permutation.
  eapply Forall_impl; [apply enumerate_from_bounds|]. simpl. intros; lia.
Qed.

Lemma length_sorted_items (row : list float) :
  length (sorted_items row) = length row.
Proof.
  unfold sorted_items, enumerate.
  rewrite length_sorted_reverse. apply length_enumerate_from.
Qed.

(** What [predict] computes once the query and its row are found. *)
Lemma predict_unfold (s : ExampleRecommender) (file_name : string)
    (names : list string) (m : list (list float)) (item_id : nat) (row : list float) :
  file_names_ s = Some names ->
  list_index file_name names = Some item_id ->
  similarity_matrix_ s = Some m ->
  m !! item_id = Some row ->
  predict s file_name =
  (stop ← slice_stop (n_examples s);
   mapM (getitem "list index out of range" names)
        (py_slice (sorted_items row) 1 stop).*1).
Proof.
  intros Hn Hi Hm Hr. unfold predict. rewrite Hn, Hm. cbn. rewrite Hi. cbn.
  assert (Hg : getitem "index out of bounds" m item_id = Ok row).
  { unfold getitem. by rewrite Hr. }
  by rewrite Hg.
Qed.

(** C6: for a query found in the fitted list whose similarity row holds
    numbers, the ranking that [predict] cuts its answer from is the pairs
    (position, score) of the row, each once, by decreasing score, and
    among equal scores by increasing position. *)
Theorem predict_ranking (s : ExampleRecommender) (file_name : string)
    (names : list string) (m : list (list float)) (item_id : nat) (row : list float) :
  file_names_ s = Some names ->
  list_index file_name names = Some item_id ->
  similarity_matrix_ s = Some m ->
  m !! item_id = Some row ->
  Forall not_nan row ->
  sorted_items row ≡ₚ enumerate row
  /\ StronglySorted ranked_before (sorted_items row)
  /\ predict s file_name =
     (stop ← slice_stop (n_examples s);
      mapM (getitem "list index out of range" names)
           (py_slice (sorted_items row) 1 stop).*1).
Proof.
  intros Hn Hi Hm Hr Hrow. split; [|split].
  - apply sorted_reverse_Permutation.
  - by apply sorted_reverse_enumerate_from.
  - by eapply predict_unfold.
Qed.

(** C8: on a fitted model (a square similarity matrix over the fitted
    names, [n_examples] an integer that is at least 1), the answer to a
    fitted query has min(n_examples, n_documents - 1) names. *)
Theorem predict_length (s : ExampleRecommender) (file_name : string)
    (names : list string) (m : list (list float)) :
  file_names_ s = Some names ->
  similarity_matrix_ s = Some m ->
  length m = length names ->
  Forall (fun row => length row = length names) m ->
  is_integral (n_examples s) = true ->
  (1 <= int_value (n_examples s))%Z ->
  file_name ∈ names ->
  exists recommendations,
    predict s file_name = Ok recommendations
    /\ Z.of_nat (length recommendations)
       = Z.min (int_value (n_examples s)) (Z.of_nat (length names) - 1).
Proof.
  intros Hn Hm Hlen Hrows Hint Hpos Hin.
  destruct (list_index_Some _ _ Hin) as (i & Hi & Hlt).
  destruct (lookup_lt_is_Some_2 m i ltac:(lia)) as [row Hrow].
  assert (Hrl : length row = length names).
  { rewrite Forall_forall in Hrows. apply Hrows. by eapply list_elem_of_lookup_2. }
  rewrite (predict_unfold _ _ _ _ _ _ Hn Hi Hm Hrow).
  assert (Hstop : slice_stop (n_examples s) = Ok (int_value (n_examples s) + 1)).
  { destruct (n_examples s); simpl in *; try discriminate; reflexivity. }
  rewrite Hstop. cbn.
  destruct (mapM_getitem "list index out of range" names
              (py_slice (sorted_items row) 1 (int_value (n_examples s) + 1)).*1)
    as (out & Hout & Hlo).
  - apply Forall_fmap. apply Forall_forall. intros p Hp.
    apply py_slice_subseteq in Hp.
    pose proof (sorted_items_positions row) as Hb. rewrite Forall_forall in Hb.
    specialize (Hb p Hp). simpl. lia.
  - exists out. split; [done|].
    rewrite Hlo, length_fmap, length_py_slice_from_1; rewrite ?length_sorted_items; lia.
Qed.

Lemma predict_ranking_witness :
  (file_names_ three_documents = Some ["a.py"; "b.py"; "c.py"]
   /\ list_index "a.py" ["a.py"; "b.py"; "c.py"] = Some 0%nat
   /\ similarity_matrix_ three_documents
      = Some [[1; 0.5; 0.5]; [0.5; 1; 0.25]; [0.5; 0.25; 1]]%float
   /\ [[1; 0.5; 0.5]; [0.5; 1; 0.25]; [0.5; 0.25; 1]]%float !! 0%nat
      = Some [1; 0.5; 0.5]%float
   /\ Forall not_nan [1; 0.5; 0.5]%float)
  /\ StronglySorted ranked_before (sorted_items [1; 0.5; 0.5]%float).
Proof.
  assert (H : Forall not_nan [1; 0.5; 0.5]%float) by (repeat constructor).
  split.
  - repeat split; try reflexivity. exact H.
  - exact (proj1 (proj2 (predict_ranking three_documents "a.py"
                           ["a.py"; "b.py"; "c.py"]
                           [[1; 0.5; 0.5]; [0.5; 1; 0.25]; [0.5; 0.25; 1]]%float
                           0%nat [1; 0.5; 0.5]%float
                           eq_refl eq_refl eq_refl eq_refl H))).
Defined.

Lemma predict_length_witness :
  exists recommendations,
    predict three_documents "b.py" = Ok recommendations
    /\ Z.of_nat (length recommendations) = Z.min 2 (3 - 1).
Proof.
  apply (predict_length three_documents "b.py" ["a.py"; "b.py"; "c.py"]
           [[1; 0.5; 0.5]; [0.5; 1; 0.25]; [0.5; 0.25; 1]]%float).
  - reflexivity.
  - reflexivity.
  - reflexivity.
  - repeat constructor.
  - reflexivity.
  - simpl. lia.
  - set_solver.
Defined.

(** ** The rows of a CSR matrix *)

Lemma rows_between_nth {A} (zs : list A) (ptr : list nat) :
  (fun i => take (nth (S i) ptr 0 - nth i ptr 0)%nat (drop (nth i ptr 0%nat) zs))
    <$> seq 0 (length ptr - 1)
  = rows_between zs ptr.
Proof.
  induction ptr as [|lo [|hi ptr] IH]; [done | done |].
  replace (length (lo :: hi :: ptr) - 1)%nat with (S (length (hi :: ptr) - 1))
    by (simpl; lia).
  rewrite <- cons_seq, fmap_cons, <- fmap_S_seq, <- list_fmap_compose.
  change (rows_between zs (lo :: hi :: ptr))
    with (take (hi - lo) (drop lo zs) :: rows_between zs (hi :: ptr)).
  rewrite <- IH. reflexivity.
Qed.

Lemma csr_rows_between (X : csr_matrix) :
  length (indptr X) = S (fst (shape X)) ->
  csr_rows X = rows_between (zip (indices X) (data X)) (indptr X).
Proof.
  intros H. unfold csr_rows, csr_row. rewrite <- rows_between_nth, H.
  by rewrite Nat.sub_1_r.
Qed.

Lemma concat_rows_between {A} (zs : list A) (ptr : list nat) :
  nondecreasing ptr = true ->
  concat (rows_between zs ptr)
  = take (List.last ptr 0 - nth 0 ptr 0)%nat (drop (nth 0 ptr 0%nat) zs).
Proof.
  induction ptr as [|lo [|hi ptr] IH]; intros Hnd.
  - done.
  - simpl. by rewrite Nat.sub_diag.
  - simpl in Hnd. apply andb_true_iff in Hnd as [Hle Hnd]. apply Nat.leb_le in Hle.
    change (rows_between zs (lo :: hi :: ptr))
      with (take (hi - lo) (drop lo zs) :: rows_between zs (hi :: ptr)).
    rewrite concat_cons, (IH Hnd).
    change (List.last (lo :: hi :: ptr) 0%nat) with (List.last (hi :: ptr) 0%nat).
    change (nth 0 (lo :: hi :: ptr) 0%nat) with lo.
    change (nth 0 (hi :: ptr) 0%nat) with hi.
    assert (Hlast : (hi <= List.last (hi :: ptr) 0)%nat).
    { clear -Hnd. revert hi Hnd. induction ptr as [|b ptr IHp]; intros hi Hnd; [simpl; lia|].
      simpl in Hnd. apply andb_true_iff in Hnd as [Hle Hnd]. apply Nat.leb_le in Hle.
      change (List.last (hi :: b :: ptr) 0%nat) with (List.last (b :: ptr) 0%nat).
      specialize (IHp b Hnd). lia. }
    set (e := List.last (hi :: ptr) 0%nat) in *.
    replace (e - lo)%nat with ((hi - lo) + (e - hi))%nat by lia.
    rewrite <- take_take_drop, drop_drop.
    by replace (lo + (hi - lo))%nat with hi by lia.
Qed.

Lemma concat_csr_rows (X : csr_matrix) :
  csr_wf X = true -> concat (csr_rows X) = zip (indices X) (data X).
Proof.
  unfold csr_wf. rewrite !andb_true_iff.
  intros [[[[[[[Hlen H0] Hnd] Hlast] Hdata] _] _] _].
  apply Nat.eqb_eq in Hlen, H0, Hlast, Hdata.
  rewrite (csr_rows_between X Hlen), (concat_rows_between _ _ Hnd), H0, Hlast.
  rewrite drop_0, Nat.sub_0_r. apply take_ge.
  rewrite length_zip. lia.
Qed.

Lemma row_offsets_head {A} (start : nat) (rows : list (list A)) :
  exists ptr, row_offsets start rows = start :: ptr.
Proof. destruct rows; simpl; eauto. Qed.

Lemma rows_between_offsets {A} (zs : list A) (start : nat) (rows : list (list A)) :
  drop start zs = concat rows ->
  rows_between zs (row_offsets start rows) = rows.
Proof.
  revert start. induction rows as [|r rows IH]; intros start Hz; [done|].
  simpl row_offsets.
  destruct (row_offsets_head (start + length r) rows) as [ptr E].
  rewrite E.
  change (rows_between zs (start :: (start + length r)%nat :: ptr))
    with (take (start + length r - start) (drop start zs)
            :: rows_between zs ((start + length r)%nat :: ptr)).
  rewrite <- E, Hz, concat_cons. f_equal.
  - apply take_app_length'. lia.
  - apply IH. rewrite <- drop_drop, Hz, concat_cons. apply drop_app_length.
Qed.

Lemma length_row_offsets {A} (start : nat) (rows : list (list A)) :
  length (row_offsets start rows) = S (length rows).
Proof. revert start. induction rows; intros; simpl; auto. Qed.

(** The rows of a matrix built from rows are those rows. *)
Lemma csr_rows_of_rows (rows : list (list (nat * float))) (sh : nat * nat) :
  fst sh = length rows -> csr_rows (csr_of_rows rows sh) = rows.
Proof.
  intros Hsh. rewrite csr_rows_between.
  - simpl. rewrite zip_fst_snd. by apply rows_between_offsets.
  - simpl. by rewrite length_row_offsets, Hsh.
Qed.

(** ** [tfidf_transformer]: document frequencies and scaling *)

Lemma bincount_lookup (x : list nat) (minlength j : nat) :
  (j < minlength)%nat ->
  bincount x minlength !! j = Some (count_occ Nat.eq_dec x j).
Proof.
  intros Hj. unfold bincount. rewrite list_lookup_fmap, lookup_seq_lt; [done|]. lia.
Qed.

Lemma length_bincount (x : list nat) (minlength : nat) :
  forallb (fun k => (k <? minlength)%nat) x = true ->
  length (bincount x minlength) = minlength.
Proof.
  intros Hx. unfold bincount. rewrite length_fmap, length_seq.
  assert (H : (foldr (fun i n => Nat.max (S i) n) 0 x <= minlength)%nat).
  { induction x as [|k x IH]; simpl in *; [lia|].
    apply andb_true_iff in Hx as [Hk Hx]. apply Nat.ltb_lt in Hk.
    specialize (IH Hx). lia. }
  lia.
Qed.

Lemma assoc_lookup_elem_of (j : nat) (row : list (nat * float)) (v : float) :
  assoc_lookup j row = Some v -> (j, v) ∈ row.
Proof.
  induction row as [|[k w] row IH]; simpl; [done|].
  destruct (j =? k)%nat eqn:E.
  - apply Nat.eqb_eq in E as ->. intros [= ->]. left.
  - intros H. right. by apply IH.
Qed.

Lemma assoc_lookup_None (j : nat) (row : list (nat * float)) :
  assoc_lookup j row = None <-> j ∉ row.*1.
Proof.
  induction row as [|[k w] row IH]; simpl.
  - split; [intros _; apply not_elem_of_nil | done].
  - rewrite not_elem_of_cons. destruct (j =? k)%nat eqn:E.
    + apply Nat.eqb_eq in E. split; [done | tauto].
    + apply Nat.eqb_neq in E. rewrite IH. tauto.
Qed.

Lemma count_occ_distinct (j : nat) (row : list (nat * float)) :
  distinct row.*1 = true ->
  count_occ Nat.eq_dec row.*1 j = if assoc_lookup j row is Some _ then 1%nat else 0%nat.
Proof.
  induction row as [|[k w] row IH]; simpl; [done|].
  rewrite andb_true_iff, negb_true_iff. intros [Hk Hd].
  destruct (Nat.eq_dec k j) as [->|Hne].
  - rewrite Nat.eqb_refl. f_equal. apply count_occ_not_In.
    intros Hin. apply not_true_iff_false in Hk. apply Hk.
    apply existsb_exists. exists j. split; [done | apply Nat.eqb_refl].
  - destruct (j =? k)%nat eqn:E; [apply Nat.eqb_eq in E; congruence|].
    by apply IH.
Qed.

Lemma count_occ_concat_rows (j : nat) (rows : list (list (nat * float))) :
  forallb (fun r => distinct r.*1) rows = true ->
  count_occ Nat.eq_dec (concat rows).*1 j
  = length (filter (fun r => is_Some (assoc_lookup j r)) rows).
Proof.
  induction rows as [|r rows IH]; simpl; [done|].
  rewrite andb_true_iff. intros [Hr Hrows].
  rewrite fmap_app, count_occ_app, (IH Hrows), (count_occ_distinct _ _ Hr).
  rewrite filter_cons. destruct (assoc_lookup j r) as [v|] eqn:E.
  - rewrite decide_True; [done | by eexists].
  - rewrite decide_False; [done | by intros []].
Qed.

Lemma csr_wf_indices (X : csr_matrix) :
  csr_wf X = true -> indices X = (concat (csr_rows X)).*1.
Proof.
  intros Hwf. rewrite (concat_csr_rows X Hwf). symmetry. apply fst_zip.
  unfold csr_wf in Hwf. rewrite !andb_true_iff in Hwf.
  destruct Hwf as [[[[_ Hdata] _] _] _]. apply Nat.eqb_eq in Hdata. lia.
Qed.

Lemma csr_wf_stored_nonzero (X : csr_matrix) (i j : nat) (v : float) :
  csr_wf X = true -> (i < fst (shape X))%nat ->
  assoc_lookup j (csr_row X i) = Some v -> nonzero v = true.
Proof.
  intros Hwf Hi Hv. apply assoc_lookup_elem_of in Hv.
  assert (Hz : (j, v) ∈ zip (indices X) (data X)).
  { rewrite <- (concat_csr_rows X Hwf). apply list_elem_of_In, in_concat.
    exists (csr_row X i). split; [|by apply list_elem_of_In].
    apply list_elem_of_In. unfold csr_rows. apply list_elem_of_fmap.
    exists i. split; [done|]. apply elem_of_seq. lia. }
  apply elem_of_zip_r in Hz.
  unfold csr_wf in Hwf. rewrite !andb_true_iff in Hwf.
  destruct Hwf as [_ Hnz]. rewrite forallb_forall in Hnz.
  apply Hnz. by apply list_elem_of_In.
Qed.

Lemma nonzero_entry_stored (X : csr_matrix) (i j : nat) :
  csr_wf X = true -> (i < fst (shape X))%nat ->
  nonzero (csr_entry X i j) = true <-> is_Some (assoc_lookup j (csr_row X i)).
Proof.
  intros Hwf Hi. unfold csr_entry.
  destruct (assoc_lookup j (csr_row X i)) as [v|] eqn:E; simpl.
  - split; [by eexists | intros _; by eapply csr_wf_stored_nonzero].
  - split; [discriminate | by intros []].
Qed.

Lemma document_frequency_rows (X : csr_matrix) (j : nat) :
  csr_wf X = true -> (j < snd (shape X))%nat ->
  document_frequency X !! j = Some (rows_with_nonzero X j).
Proof.
  intros Hwf Hj. unfold document_frequency.
  rewrite (bincount_lookup _ _ _ Hj). f_equal.
  rewrite (csr_wf_indices X Hwf) at 1.
  rewrite count_occ_concat_rows.
  2: { unfold csr_wf in Hwf. rewrite !andb_true_iff in Hwf. tauto. }
  unfold rows_with_nonzero, csr_rows.
  generalize (fun i (Hi : i ∈ seq 0 (fst (shape X))) =>
                nonzero_entry_stored X i j Hwf (proj2 (proj1 (elem_of_seq _ _ _) Hi))).
  generalize (seq 0 (fst (shape X))). intros l Hl.
  induction l as [|i l IH]; [done|].
  rewrite fmap_cons, !filter_cons.
  assert (Hi := Hl i ltac:(left)).
  destruct (decide (is_Some (assoc_lookup j (csr_row X i)))) as [Hs|Hs].
  - rewrite decide_True by (by apply Hi). simpl. f_equal. apply IH.
    intros k Hk. apply Hl. by right.
  - rewrite decide_False by (by rewrite Hi). apply IH.
    intros k Hk. apply Hl. by right.
Qed.

Lemma csr_row_lookup (X : csr_matrix) (i : nat) :
  (i < fst (shape X))%nat -> csr_rows X !! i = Some (csr_row X i).
Proof. intros Hi. unfold csr_rows. by rewrite list_lookup_fmap, lookup_seq_lt. Qed.

Lemma csr_wf_row_distinct (X : csr_matrix) (i : nat) :
  csr_wf X = true -> (i < fst (shape X))%nat -> distinct (csr_row X i).*1 = true.
Proof.
  intros Hwf Hi. unfold csr_wf in Hwf. rewrite !andb_true_iff in Hwf.
  destruct Hwf as [[_ Hd] _]. rewrite forallb_forall in Hd.
  apply (Hd (csr_row X i)), list_elem_of_In. unfold csr_rows.
  apply list_elem_of_fmap. exists i. split; [done|]. apply elem_of_seq. lia.
Qed.

(** *** Sorting the stored entries of a row *)

Lemma insert_index_Permutation {A} (kv : nat * A) (row : list (nat * A)) :
  insert_index kv row ≡ₚ kv :: row.
Proof.
  induction row as [|kv' row IH]; simpl; [done|].
  destruct (kv.1 <=? kv'.1)%nat; [done|].
  rewrite IH. apply Permutation_swap.
Qed.

Lemma sort_indices_Permutation {A} (row : list (nat * A)) : sort_indices row ≡ₚ row.
Proof.
  induction row as [|kv row IH]; simpl; [done|].
  unfold sort_indices in *. simpl. by rewrite insert_index_Permutation, IH.
Qed.

Lemma sort_indices_keys {A} (row : list (nat * A)) (j : nat) :
  j ∈ (sort_indices row).*1 <-> j ∈ row.*1.
Proof. by rewrite (sort_indices_Permutation row). Qed.

(** *** The product with the diagonal *)

Section TransformerRows.

Context {T : Type} `{Dtype T}.

Lemma add_to_sums_keys (k : nat) (p : T) (sums : list (nat * T)) (j : nat) :
  j ∈ (add_to_sums k p sums).*1 <-> j = k \/ j ∈ sums.*1.
Proof.
  induction sums as [|[k' s] sums IH]; simpl.
  - rewrite list_elem_of_singleton, elem_of_nil. tauto.
  - destruct (k =? k')%nat eqn:E; simpl; rewrite !elem_of_cons.
    + apply Nat.eqb_eq in E as ->. tauto.
    + rewrite IH. tauto.
Qed.

Lemma NoDup_add_to_sums (k : nat) (p : T) (sums : list (nat * T)) :
  NoDup sums.*1 -> NoDup (add_to_sums k p sums).*1.
Proof.
  induction sums as [|[k' s] sums IH]; simpl; intros Hnd.
  - apply NoDup_singleton.
  - apply NoDup_cons in Hnd as [Hk' Hnd].
    destruct (k =? k')%nat eqn:E; simpl.
    + by apply NoDup_cons.
    + apply NoDup_cons. split; [|by apply IH].
      rewrite add_to_sums_keys. apply Nat.eqb_neq in E. intros [->|?]; done.
Qed.

Lemma idf_scale_step_keys (idf_diag : list T) (sums : list (nat * T))
    (kv : nat * T) (j : nat) :
  j ∈ (idf_scale_step idf_diag sums kv).*1 -> j = kv.1 \/ j ∈ sums.*1.
Proof.
  unfold idf_scale_step. destruct (idf_diag !! kv.1) as [w|]; [|by right].
  destruct (dt_nonzero w); [|by right]. by rewrite add_to_sums_keys.
Qed.

Lemma NoDup_idf_scale_step (idf_diag : list T) (sums : list (nat * T)) (kv : nat * T) :
  NoDup sums.*1 -> NoDup (idf_scale_step idf_diag sums kv).*1.
Proof.
  intros Hnd. unfold idf_scale_step. destruct (idf_diag !! kv.1) as [w|]; [|done].
  destruct (dt_nonzero w); [|done]. by apply NoDup_add_to_sums.
Qed.

Lemma foldl_idf_scale_step_keys (idf_diag : list T) (row sums : list (nat * T)) (j : nat) :
  j ∈ (foldl (idf_scale_step idf_diag) sums row).*1 -> j ∈ sums.*1 \/ j ∈ row.*1.
Proof.
  revert sums. induction row as [|kv row IH]; intros sums; simpl; [by left|].
  intros Hj. apply IH in Hj as [Hj|Hj].
  - apply idf_scale_step_keys in Hj as [->|Hj]; [right; left | by left].
  - right. by right.
Qed.

Lemma NoDup_foldl_idf_scale_step (idf_diag : list T) (row sums : list (nat * T)) :
  NoDup sums.*1 -> NoDup (foldl (idf_scale_step idf_diag) sums row).*1.
Proof.
  revert sums. induction row as [|kv row IH]; intros sums Hnd; simpl; [done|].
  by apply IH, NoDup_idf_scale_step.
Qed.

Lemma idf_scale_row_keys (idf_diag : list T) (row : list (nat * T)) (j : nat) :
  j ∈ (idf_scale_row idf_diag row).*1 -> j ∈ row.*1.
Proof.
  unfold idf_scale_row. intros Hj.
  apply list_elem_of_fmap in Hj as ([k s] & -> & Hin).
  apply list_elem_of_filter in Hin as [_ Hin]. rewrite elem_of_reverse in Hin.
  assert (Hk : k ∈ (foldl (idf_scale_step idf_diag) [] row).*1).
  { apply list_elem_of_fmap. by exists (k, s). }
  apply foldl_idf_scale_step_keys in Hk as [Hk|Hk]; [by apply elem_of_nil in Hk | done].
Qed.

Lemma NoDup_idf_scale_row (idf_diag : list T) (row : list (nat * T)) :
  NoDup (idf_scale_row idf_diag row).*1.
Proof.
  unfold idf_scale_row.
  eapply sublist_NoDup; [|apply fmap_sublist, sublist_filter].
  rewrite fmap_reverse, reverse_Permutation.
  apply NoDup_foldl_idf_scale_step. constructor.
Qed.

Lemma divide_row_keys (row : list (nat * T)) (norm : float) :
  (divide_row row norm).1.*1 = (sort_indices row).*1.
Proof.
  unfold divide_row. destruct (np_true_divide 1 norm) as [recip errs]. simpl.
  rewrite <- list_fmap_compose. by apply list_fmap_ext.
Qed.

Lemma astype_row_keys (row : list (nat * float)) :
  (astype_row (T := T) row).*1 = row.*1.
Proof. unfold astype_row. rewrite <- list_fmap_compose. by apply list_fmap_ext. Qed.

Lemma length_tfidf_rows (idf_diag : list T) (rows : list (list (nat * T))) :
  length (tfidf_rows idf_diag rows).1 = length rows.
Proof. unfold tfidf_rows. simpl. by rewrite !length_fmap. Qed.

Lemma tfidf_rows_rows (idf_diag : list T) (rows : list (list (nat * T))) :
  (tfidf_rows idf_diag rows).1
  = (fun row => astype_row (divide_row row (row_norm row)).1)
      <$> (idf_scale_row idf_diag <$> rows).
Proof. unfold tfidf_rows. simpl. by rewrite <- !list_fmap_compose. Qed.

Lemma tfidf_rows_errors (idf_diag : list T) (rows : list (list (nat * T))) :
  (tfidf_rows idf_diag rows).2
  = concat ((fun row => (divide_row row (row_norm row)).2)
              <$> (idf_scale_row idf_diag <$> rows)).
Proof. unfold tfidf_rows. simpl. by rewrite <- !list_fmap_compose. Qed.

End TransformerRows.

Lemma length_idf_scaled_rows (np_log : float -> float) (X : csr_matrix) :
  length (idf_scaled_rows np_log X) = fst (shape X).
Proof. unfold idf_scaled_rows, csr_rows. by rewrite !length_fmap, length_seq. Qed.

(** The rows of the transformed matrix are the idf-scaled rows, each
    divided by its norm and converted to the dtype. *)
Lemma csr_rows_tfidf (np_log : float -> float) (X : csr_matrix) :
  csr_rows (tfidf_transformer np_log (Sparse X))
  = (fun row => astype_row (divide_row row (row_norm row)).1) <$> idf_scaled_rows np_log X.
Proof.
  unfold tfidf_transformer, tfidf_transformer_np, tfidf_csr.
  cbn [fst snd]. rewrite csr_rows_of_rows.
  - apply tfidf_rows_rows.
  - cbn [fst]. rewrite length_tfidf_rows. unfold csr_rows. by rewrite length_fmap, length_seq.
Qed.

Lemma tfidf_fp_errors_rows (np_log : float -> float) (X : csr_matrix) :
  tfidf_fp_errors np_log (Sparse X)
  = concat ((fun row => (divide_row row (row_norm row)).2) <$> idf_scaled_rows np_log X).
Proof.
  unfold tfidf_fp_errors, tfidf_transformer_np, tfidf_csr. cbn [fst snd].
  apply tfidf_rows_errors.
Qed.

Section TfIdfProperties.

Variable np_log : float -> float.

(** C5, as the code has it: a row without stored entries (an all-zero
    row) comes out without stored entries, but not because the division
    is skipped: its norm is 0.0, the reciprocal of the norm is taken all
    the same, and numpy signals the division by zero. *)
Theorem tfidf_zero_row (X : csr_matrix) (i : nat) :
  (i < fst (shape X))%nat ->
  csr_row X i = [] ->
  csr_row (tfidf_transformer np_log (Sparse X)) i = []
  /\ (forall j, csr_entry (tfidf_transformer np_log (Sparse X)) i j = 0%float)
  /\ (exists row, idf_scaled_rows np_log X !! i = Some row
                  /\ row_norm row = 0%float
                  /\ np_true_divide 1 (row_norm row) = (infinity, [FPDivideByZero]))
  /\ FPDivideByZero ∈ tfidf_fp_errors np_log (Sparse X).
Proof.
  intros Hi Hrow.
  assert (Hs : idf_scaled_rows np_log X !! i = Some []).
  { unfold idf_scaled_rows. rewrite list_lookup_fmap, (csr_row_lookup X i Hi), Hrow.
    reflexivity. }
  assert (Hout : csr_row (tfidf_transformer np_log (Sparse X)) i = []).
  { assert (Hl : csr_rows (tfidf_transformer np_log (Sparse X)) !! i
                 = Some (csr_row (tfidf_transformer np_log (Sparse X)) i)).
    { by apply csr_row_lookup. }
    rewrite csr_rows_tfidf, list_lookup_fmap, Hs in Hl.
    cbn [fmap option_fmap option_map] in Hl. by injection Hl as <-. }
  split; [exact Hout|]. split; [|split].
  - intros j. unfold csr_entry. by rewrite Hout.
  - exists []. by repeat split.
  - rewrite tfidf_fp_errors_rows.
    apply list_elem_of_In, in_concat. exists [FPDivideByZero].
    split; [|by left].
    apply list_elem_of_In, list_elem_of_fmap.
    exists []. split; [done|]. by eapply list_elem_of_lookup_2.
Qed.

End TfIdfProperties.

(** A row whose norm is zero although an entry is stored is not left as
    it is either: the entry is multiplied by the reciprocal of zero. *)
Lemma tfidf_underflow_row (np_log : float -> float) :
  np_log 1%float = 0%float ->
  idf_scaled_rows np_log tiny_entry = [[(0%nat, 0x1p-600%float)]]
  /\ row_norm [(0%nat, 0x1p-600%float)] = 0%float
  /\ csr_rows (tfidf_transformer np_log (Sparse tiny_entry)) = [[(0%nat, infinity)]].
Proof.
  intros H.
  assert (Hs : idf_scaled_rows np_log tiny_entry = [[(0%nat, 0x1p-600%float)]]).
  { vm_compute. rewrite H. vm_compute. reflexivity. }
  split; [exact Hs|]. split; [vm_compute; reflexivity|].
  rewrite csr_rows_tfidf, Hs. vm_compute. reflexivity.
Qed.

Lemma tfidf_fp_errors_cat_and_empty :
  tfidf_fp_errors log_stand_in (Sparse cat_and_empty) = [FPDivideByZero].
Proof. vm_compute. reflexivity. Qed.

(** C5, as stated, fails on the counts of "cat" and an empty document: the
    second row has norm zero after scaling, the division is not skipped
    for it, and the division by zero does occur. *)
Lemma tfidf_zero_row_division_occurs :
  ~ (forall (np_log : float -> float) (X : csr_matrix) (i : nat)
            (row : list (nat * float)),
       csr_wf X = true ->
       idf_scaled_rows np_log X !! i = Some row ->
       row_norm row = 0%float ->
       FPDivideByZero ∉ tfidf_fp_errors np_log (Sparse X)).
Proof.
  intros H.
  apply (H log_stand_in cat_and_empty 1%nat [] eq_refl eq_refl eq_refl).
  rewrite tfidf_fp_errors_cat_and_empty. left.
Qed.

Lemma tfidf_zero_row_witness :
  ((1 < fst (shape cat_and_empty))%nat /\ csr_row cat_and_empty 1 = [])
  /\ csr_row (tfidf_transformer log_stand_in (Sparse cat_and_empty)) 1 = []
  /\ FPDivideByZero ∈ tfidf_fp_errors log_stand_in (Sparse cat_and_empty).
Proof.
  assert (H1 : (1 < fst (shape cat_and_empty))%nat) by (simpl; lia).
  assert (H2 : csr_row cat_and_empty 1 = []) by reflexivity.
  pose proof (tfidf_zero_row log_stand_in cat_and_empty 1 H1 H2) as (Ha & _ & _ & Hb).
  split; [split; [exact H1 | exact H2] | split; [exact Ha | exact Hb]].
Defined.

(** *** [tfidf_transformer] on integer counts *)

Lemma digits2_pos_bounds (m : positive) :
  (2 ^ (Zpos (digits2_pos m) - 1) <= Zpos m < 2 ^ Zpos (digits2_pos m))%Z.
Proof.
  induction m as [m IH|m IH|]; simpl digits2_pos; [| |simpl; lia].
  - rewrite Pos2Z.inj_succ.
    replace (Z.succ (Zpos (digits2_pos m)) - 1)%Z
      with (Z.succ (Zpos (digits2_pos m) - 1)) by lia.
    rewrite !Z.pow_succ_r by lia. lia.
  - rewrite Pos2Z.inj_succ.
    replace (Z.succ (Zpos (digits2_pos m)) - 1)%Z
      with (Z.succ (Zpos (digits2_pos m) - 1)) by lia.
    rewrite !Z.pow_succ_r by lia. lia.
Qed.

(** A float64 from 1.0 up to 2.0, 2.0 left out, is stored into an int64
    array as 1. *)
Lemma int64_of_float_between_1_2 (y : float) :
  (1 <=? y)%float = true -> (y <? 2)%float = true -> int64_of_float y = 1.
Proof.
  rewrite FloatAxioms.leb_spec, FloatAxioms.ltb_spec.
  pose proof (Prim2SF_valid y) as Hv. unfold int64_of_float.
  change (Prim2SF 1) with (S754_finite false 4503599627370496 (-52)).
  change (Prim2SF 2) with (S754_finite false 4503599627370496 (-51)).
  destruct (Prim2SF y) as [s|s| |s m e].
  1-3: intros Hle Hlt; try destruct s; cbv in Hle, Hlt; congruence.
  unfold SFleb, SFltb, SFcompare. destruct s; [intros; discriminate|].
  rewrite !Pos.compare_cont_spec. unfold Pos.switch_Eq.
  intros Hle Hlt.
  unfold valid_binary, bounded, canonical_mantissa, fexp, emin in Hv.
  apply andb_true_iff in Hv as [Hc _]. apply Z.eqb_eq in Hc.
  unfold prec, emax in Hc.
  pose proof (digits2_pos_bounds m) as Hd.
  change (2 ^ 63)%Z with 9223372036854775808%Z.
  assert (He : e = (-52)%Z /\ (4503599627370496 <= Zpos m)%Z).
  { destruct (Z.compare_spec (-52) e) as [He|He|He]; [| |discriminate].
    - subst e. split; [reflexivity|].
      destruct (Pos.compare_spec 4503599627370496 m) as [Hm|Hm|Hm]; [| |discriminate].
      + subst m. lia.
      + apply Pos2Z.pos_lt_pos in Hm. lia.
    - destruct (Z.compare_spec e (-51)) as [He'|He'|He']; [| lia |discriminate].
      subst e. exfalso.
      destruct (Pos.compare_spec m 4503599627370496) as [Hm|Hm|Hm]; try discriminate.
      apply Pos2Z.pos_lt_pos in Hm.
      assert (Hdig : (Zpos (digits2_pos m) <= 52)%Z).
      { destruct (Z.le_gt_cases (Zpos (digits2_pos m)) 52) as [?|Hgt]; [assumption|].
        exfalso. assert (2 ^ 52 <= 2 ^ (Zpos (digits2_pos m) - 1))%Z
          by (apply Z.pow_le_mono_r; lia).
        change (2 ^ 52)%Z with 4503599627370496%Z in *. lia. }
      lia. }
  destruct He as [-> Hm].
  assert (Hdig : Zpos (digits2_pos m) = 53%Z) by lia.
  rewrite Hdig in Hd.
  change (2 ^ (53 - 1))%Z with 4503599627370496%Z in Hd.
  change (2 ^ 53)%Z with 9007199254740992%Z in Hd.
  change (0 <=? -52)%Z with false. cbv iota.
  change (2 ^ (- -52))%Z with 4503599627370496%Z.
  assert (Hq : (Zpos m / 4503599627370496 = 1)%Z).
  { symmetry. apply (Z.div_unique _ _ 1 (Zpos m - 4503599627370496)); lia. }
  rewrite Hq. reflexivity.
Qed.

(** C4: on the counts of "cat dog dog", "dog bird" and "cat cat bird" as
    an int64 matrix, every df is 2 and every idf is log(4/3) + 1, a number
    between 1 and 2 for the natural logarithm.  The diagonal that the
    counts are multiplied by holds the idf converted to int64, which is 1:
    the rows that are normalized are the counts themselves, not the counts
    scaled by the idf, and the result, converted to int64 again, stores
    six zeros. *)
Theorem tfidf_int64_truncates_idf (np_log : float -> float) :
  let idf := (np_log (4 / 3) + 1)%float in
  (1 <=? idf)%float = true -> (idf <? 2)%float = true ->
  document_frequency_int64 worked_example_counts = [2; 2; 2]%nat
  /\ idf_vector_int64 np_log worked_example_counts = [idf; idf; idf]
  /\ idf_diag_int64 np_log worked_example_counts = [1; 1; 1]
  /\ idf_scaled_rows_int64 np_log worked_example_counts
     = [[(2%nat, 2); (1%nat, 1)]; [(2%nat, 1); (0%nat, 1)]; [(1%nat, 2); (0%nat, 1)]]
  /\ sort_indices <$> idf_scaled_rows_int64 np_log worked_example_counts
     = csr_rows_int64 worked_example_counts
  /\ tfidf_transformer_int64 np_log (Sparse_int64 worked_example_counts)
     = CSR_int64 [0; 0; 0; 0; 0; 0] [1; 2; 0; 2; 0; 1]%nat [0; 2; 4; 6]%nat (3, 3)%nat.
Proof.
  intros idf Hle Hlt.
  assert (Hidf : idf_vector_int64 np_log worked_example_counts = [idf; idf; idf]).
  { vm_compute. reflexivity. }
  assert (Hdiag : idf_diag_int64 np_log worked_example_counts = [1; 1; 1]).
  { unfold idf_diag_int64, idf_diagonal. rewrite Hidf. simpl.
    by rewrite (int64_of_float_between_1_2 idf Hle Hlt). }
  assert (Hrows : idf_scaled_rows_int64 np_log worked_example_counts
                  = [[(2%nat, 2); (1%nat, 1)]; [(2%nat, 1); (0%nat, 1)];
                     [(1%nat, 2); (0%nat, 1)]]).
  { unfold idf_scaled_rows_int64. rewrite Hdiag. vm_compute. reflexivity. }
  split; [reflexivity|]. split; [exact Hidf|]. split; [exact Hdiag|].
  split; [exact Hrows|]. split; [rewrite Hrows; reflexivity|].
  unfold tfidf_transformer_int64, tfidf_csr_int64. rewrite Hdiag.
  vm_compute. reflexivity.
Qed.

Lemma tfidf_int64_truncates_idf_witness :
  ((1 <=? log_stand_in (4 / 3) + 1)%float = true
   /\ (log_stand_in (4 / 3) + 1 <? 2)%float = true)
  /\ idf_diag_int64 log_stand_in worked_example_counts = [1; 1; 1]
  /\ tfidf_transformer_int64 log_stand_in (Sparse_int64 worked_example_counts)
     = CSR_int64 [0; 0; 0; 0; 0; 0] [1; 2; 0; 2; 0; 1]%nat [0; 2; 4; 6]%nat (3, 3)%nat.
Proof.
  assert (H1 : (1 <=? log_stand_in (4 / 3) + 1)%float = true) by reflexivity.
  assert (H2 : (log_stand_in (4 / 3) + 1 <? 2)%float = true) by reflexivity.
  pose proof (tfidf_int64_truncates_idf log_stand_in H1 H2) as (_ & _ & Hd & _ & _ & Ht).
  split; [split; [exact H1 | exact H2] | split; [exact Hd | exact Ht]].
Defined.

Example document_frequency_four_documents :
  document_frequency four_documents = [2; 2; 2]%nat
  /\ rows_with_nonzero four_documents 1 = 2%nat.
Proof. split; reflexivity. Qed.

Lemma fit_invalid_configuration_witness :
  (tokenizer (init (PyInt 0) "raw") ∉ known_tokenizers
   \/ is_integral (n_examples (init (PyInt 0) "raw")) = false
   \/ (int_value (n_examples (init (PyInt 0) "raw")) < 1)%Z)
  /\ exists msg,
       run (fit log_stand_in no_files ["a.py"]) (World (init (PyInt 0) "raw") [])
       = (Raise (ValueError msg), World (init (PyInt 0) "raw") []).
Proof.
  assert (H : tokenizer (init (PyInt 0) "raw") ∉ known_tokenizers
            \/ is_integral (n_examples (init (PyInt 0) "raw")) = false
            \/ (int_value (n_examples (init (PyInt 0) "raw")) < 1)%Z).
  { right. right. simpl. lia. }
  split; [exact H|].
  exact (fit_invalid_configuration log_stand_in no_files ["a.py"]
           (World (init (PyInt 0) "raw") []) H).
Defined.

(** The three configurations the design document names. *)
Example fit_rejects_examples :
  (run (fit log_stand_in no_files ["a.py"]) (World (init (PyInt 0) "raw") [])).1
  = Raise (ValueError "n_examples must be strictly positive")
  /\ (run (fit log_stand_in no_files ["a.py"]) (World (init (PyInt (-3)) "raw") [])).1
     = Raise (ValueError "n_examples must be strictly positive")
  /\ (run (fit log_stand_in no_files ["a.py"]) (World (init (PyInt 5) "unknown") [])).1
     = Raise (ValueError "Unknown tokenizer unknown. ")
  /\ (run (fit log_stand_in no_files ["a.py"]) (World (init (PyFloat 2.5) "raw") [])).1
     = Raise (ValueError "n_examples must be an integer").
Proof. repeat split. Qed.

Lemma fit_backrefs_fails_witness :
  tokenizer (init (PyInt 5) "backrefs") = "backrefs"
  /\ run (fit log_stand_in no_files ["a.py"; "b.py"]) (World (init (PyInt 5) "backrefs") [])
     = (Raise (UnboundLocalError "counts_matrix"), World (init (PyInt 5) "backrefs") []).
Proof.
  split; [reflexivity|].
  apply (fit_backrefs_fails log_stand_in no_files ["a.py"; "b.py"]
           (World (init (PyInt 5) "backrefs") []) eq_refl).
  - reflexivity.
  - simpl. lia.
Defined.

(** ** [fit] with the ["raw"] tokenizer *)

(** With a file to read, [fit] stops at the tokenizer's [NameError]. *)
Example fit_raw_one_file :
  run (fit log_stand_in (fun _ => Ok "cat dog dog") ["a.py"]) (World (init (PyInt 5) "raw") [])
  = (Raise (NameError "dict_freqs"), World (init (PyInt 5) "raw") ["a.py"]).
Proof. reflexivity. Qed.

(** ** [cosine_similarity] *)

(** C2: on the rows (3, 0) and (0, 4) the diagonal of the result is
    9/25 and 16/25, not 1.0: both rows are divided by the norm of the
    whole matrix, 5, and not each by its own norm. *)
Theorem cosine_similarity_whole_matrix_norm :
  frobenius_norm rows_3_4 = 5%float
  /\ cosine_similarity rows_3_4 None
     = Ok [[(3 * (1 / 5)) * (3 * (1 / 5)); 0]; [0; (4 * (1 / 5)) * (4 * (1 / 5))]]%float
  /\ ((3 * (1 / 5)) * (3 * (1 / 5)) <? 0.5)%float = true
  /\ cosine_similarity rows_3_4 (Some rows_3_4) = cosine_similarity rows_3_4 None.
Proof. repeat split; vm_compute; reflexivity. Qed.

(** ** [predict]: the query among its own recommendations *)

(** C7: for two documents with the same text every similarity is the
    same number, the first document heads the ranking of the second, and
    [predict] answers the second document with itself. *)
Theorem predict_returns_query :
  exists m,
    cosine_similarity twin_rows None = Ok m
    /\ predict (Recommender (PyInt 1) "raw" (Some ["a.py"; "b.py"]) (Some m)) "b.py"
       = Ok ["b.py"].
Proof. eexists. split; vm_compute; reflexivity. Qed.

(** ** [dict_freqs]: keys and counts *)

Lemma foldl_count_token_lookup (doc : list string) (freq : gmap string Z) (t : string) :
  foldl count_token freq doc !! t =
  if decide (t ∈ doc)
  then Some (default 0 (freq !! t) + Z.of_nat (count_occ string_dec doc t))
  else freq !! t.
Proof.
  revert freq. induction doc as [|tok doc IH]; intros freq.
  - destruct (decide (t ∈ [])) as [Hin|_]; [by apply elem_of_nil in Hin | done].
  - change (foldl count_token freq (tok :: doc))
      with (foldl count_token (count_token freq tok) doc).
    rewrite IH, count_token_lookup. simpl count_occ.
    destruct (decide (tok = t)) as [->|Hne].
    + destruct (string_dec t t) as [_|]; [|congruence].
      destruct (decide (t ∈ t :: doc)) as [_|Hn]; [|exfalso; apply Hn; left].
      destruct (decide (t ∈ doc)) as [Hin|Hin]; simpl; [f_equal; lia|].
      f_equal.
      assert (H0 : count_occ string_dec doc t = 0%nat).
      { apply count_occ_not_In. intros HIn. by apply Hin, list_elem_of_In. }
      rewrite H0. lia.
    + destruct (string_dec tok t); [congruence|].
      destruct (decide (t ∈ doc)) as [Hin|Hin];
        destruct (decide (t ∈ tok :: doc)) as [Hin'|Hin']; try done.
      * exfalso. apply Hin'. by right.
      * apply elem_of_cons in Hin' as [->|?]; congruence.
Qed.

(** X1: the mapping [dict_freqs] builds has exactly the tokens of the
    sequence as keys, and the value of a token is the number of times it
    occurs, which is at least 1. *)
Theorem dict_freqs_counts (doc : list string) (t : string) :
  (t ∈ doc <-> is_Some (dict_freqs doc !! t))
  /\ (forall n, dict_freqs doc !! t = Some n ->
        n = Z.of_nat (count_occ string_dec doc t) /\ (1 <= n)%Z)
  /\ (t ∉ doc -> dict_freqs doc !! t = None).
Proof.
  unfold dict_freqs. rewrite foldl_count_token_lookup, lookup_empty. simpl.
  destruct (decide (t ∈ doc)) as [Hin|Hin].
  - split; [split; [by eexists | done] |]. split; [|done].
    intros n [= <-]. split; [lia|].
    apply list_elem_of_In, (count_occ_In string_dec) in Hin. lia.
  - split; [split; [done | by intros []]|]. split; [discriminate | done].
Qed.

Lemma dict_freqs_counts_witness :
  dict_freqs ["dog"; "cat"; "dog"] !! "dog" = Some 2%Z
  /\ 2%Z = Z.of_nat (count_occ string_dec ["dog"; "cat"; "dog"] "dog")
  /\ (1 <= 2)%Z.
Proof.
  assert (H : dict_freqs ["dog"; "cat"; "dog"] !! "dog" = Some 2%Z)
    by (vm_compute; reflexivity).
  split; [exact H|].
  exact (proj1 (proj2 (dict_freqs_counts ["dog"; "cat"; "dog"] "dog")) 2%Z H).
Defined.

(** ** [fit]: failures *)

Section FitFailures.

Variable np_log : float -> float.
Variable read_text : string -> result string.

Lemma fit_read_step (fname : string) (w : world) :
  run (text ← path_read_text read_text fname; py_lift (token_freqs text)) w
  = (Raise (first_file_error read_text fname),
     World (self w) (files_read w ++ [fname])).
Proof.
  unfold first_file_error, token_freqs. cbn.
  destruct (read_text fname) as [text|e]; cbn; [|reflexivity].
  by rewrite resolve_dict_freqs.
Qed.

Lemma run_bind {A B} (m : py A) (k : A -> py B) (w : world) :
  run (m ≫= k) w
  = match run m w with
    | (Ok a, w') => run (k a) w'
    | (Raise e, w') => (Raise e, w')
    end.
Proof. reflexivity. Qed.

Lemma fit_counts_matrix_raw_cons (fname : string) (rest : list string) (w : world) :
  run (fit_counts_matrix read_text "raw" (fname :: rest)) w
  = (Raise (first_file_error read_text fname),
     World (self w) (files_read w ++ [fname])).
Proof.
  unfold fit_counts_matrix. simpl String.eqb. cbv iota.
  change (mapM ?f (fname :: rest))
    with (y ← f fname; k ← mapM f rest; mret (y :: k)).
  rewrite run_bind, (run_bind (_ ≫= _) _ w), fit_read_step. reflexivity.
Qed.

Lemma known_tokenizer_cases (t : string) :
  t ∈ known_tokenizers -> t = "raw" \/ t = "backrefs".
Proof.
  unfold known_tokenizers. intros H.
  apply elem_of_cons in H as [->|H]; [by left|].
  apply elem_of_cons in H as [->|H]; [by right|].
  by apply elem_of_nil in H.
Qed.

(** What [fit] does on a list of files that is not empty. *)
Lemma fit_nonempty_run (fname : string) (rest : list string) (w : world) :
  exists e, run (fit np_log read_text (fname :: rest)) w
            = (Raise e,
               World (self w)
                 (if bool_decide (tokenizer (self w) = "raw"
                                  /\ is_integral (n_examples (self w)) = true
                                  /\ (1 <= int_value (n_examples (self w)))%Z)
                  then files_read w ++ [fname] else files_read w)).
Proof.
  destruct w as [s fr]. unfold fit. rewrite run_bind. cbn [run get_self self files_read].
  destruct (bool_decide (tokenizer s ∈ known_tokenizers)) eqn:Hk; cbn.
  2: { eexists. rewrite bool_decide_eq_false_2; [reflexivity|].
       intros (Ht & _). apply bool_decide_eq_false in Hk. apply Hk.
       rewrite Ht. left. }
  destruct (is_integral (n_examples s)) eqn:Hi; cbn.
  2: { eexists. rewrite bool_decide_eq_false_2; [reflexivity|]. intros (_ & ? & _). done. }
  destruct (int_value (n_examples s) <? 1)%Z eqn:Hv; cbn.
  { eexists. rewrite bool_decide_eq_false_2; [reflexivity|].
    intros (_ & _ & ?). apply Z.ltb_lt in Hv. lia. }
  apply Z.ltb_ge in Hv. apply bool_decide_eq_true in Hk.
  destruct (known_tokenizer_cases _ Hk) as [Ht|Ht]; rewrite Ht.
  - rewrite run_bind, (fit_counts_matrix_raw_cons fname rest (World s fr)). cbn.
    eexists. rewrite bool_decide_eq_true_2; [reflexivity | done].
  - cbn. eexists. rewrite bool_decide_eq_false_2; [reflexivity|].
    intros (? & _). congruence.
Qed.

(** X2: on a list of files that is not empty [fit] never succeeds,
    whatever the configuration and the files hold: it raises, the instance
    is as it was, and at most the first file has been read. *)
Theorem fit_nonempty_raises (fname : string) (rest : list string) (w : world) :
  exists e w',
    run (fit np_log read_text (fname :: rest)) w = (Raise e, w')
    /\ self w' = self w
    /\ (files_read w' = files_read w \/ files_read w' = files_read w ++ [fname]).
Proof.
  destruct (fit_nonempty_run fname rest w) as [e He].
  eexists _, _. split; [exact He|]. split; [done|]. simpl.
  destruct (bool_decide _); auto.
Qed.

(** X3: with the ["raw"] tokenizer and a valid [n_examples], [fit] stops at
    the first file: it reads that file and no other, and raises the error
    of the read or, when the read succeeds, the tokenizer's [NameError]. *)
Theorem fit_raw_stops_at_first_file (fname : string) (rest : list string) (w : world) :
  tokenizer (self w) = "raw" ->
  is_integral (n_examples (self w)) = true ->
  (1 <= int_value (n_examples (self w)))%Z ->
  run (fit np_log read_text (fname :: rest)) w
  = (Raise (first_file_error read_text fname),
     World (self w) (files_read w ++ [fname])).
Proof.
  intros Ht Hi Hv. destruct w as [s fr]. simpl in Ht, Hi, Hv.
  unfold fit. rewrite run_bind. cbn [run get_self self files_read].
  rewrite (bool_decide_eq_true_2 (tokenizer s ∈ known_tokenizers))
    by (rewrite Ht; left).
  cbn. rewrite Hi. cbn.
  destruct (int_value (n_examples s) <? 1)%Z eqn:E; [apply Z.ltb_lt in E; lia|].
  cbn. rewrite Ht.
  rewrite run_bind, (fit_counts_matrix_raw_cons fname rest (World s fr)). reflexivity.
Qed.

End FitFailures.

Lemma fit_raw_stops_at_first_file_witness :
  (tokenizer (init (PyInt 5) "raw") = "raw"
   /\ is_integral (n_examples (init (PyInt 5) "raw")) = true
   /\ (1 <= int_value (n_examples (init (PyInt 5) "raw")))%Z)
  /\ run (fit log_stand_in no_files ["a.py"; "b.py"]) (World (init (PyInt 5) "raw") [])
     = (Raise (OSError "a.py"), World (init (PyInt 5) "raw") ["a.py"]).
Proof.
  assert (H : (1 <= int_value (n_examples (init (PyInt 5) "raw")))%Z) by (simpl; lia).
  split; [by repeat split|].
  exact (fit_raw_stops_at_first_file log_stand_in no_files "a.py" ["b.py"]
           (World (init (PyInt 5) "raw") []) eq_refl eq_refl H).
Defined.

(** ** [predict]: errors and the shape of the answer *)

Lemma list_index_None (x : string) (l : list string) :
  x ∉ l -> list_index x l = None.
Proof.
  induction l as [|y l IH]; intros Hx; [done|]. simpl.
  apply not_elem_of_cons in Hx as [Hne Hx].
  destruct (String.eqb x y) eqn:E; [apply String.eqb_eq in E; congruence|].
  by rewrite (IH Hx).
Qed.

Lemma list_index_lookup (x : string) (l : list string) (i : nat) :
  list_index x l = Some i -> l !! i = Some x.
Proof.
  revert i. induction l as [|y l IH]; intros i; simpl; [done|].
  destruct (String.eqb x y) eqn:E.
  - apply String.eqb_eq in E as ->. by intros [= <-].
  - destruct (list_index x l) as [j|]; simpl; [|done].
    intros [= <-]. by apply IH.
Qed.

(** X4: before any [fit], [predict] raises [AttributeError]; on a fitted
    instance a name that is not in the fitted list raises [ValueError],
    whatever the matrix and [n_examples] are. *)
Theorem predict_errors (s : ExampleRecommender) (file_name : string) :
  (file_names_ s = None -> predict s file_name = Raise (AttributeError "file_names_"))
  /\ (forall names, file_names_ s = Some names -> file_name ∉ names ->
        predict s file_name
        = Raise (ValueError ("'" ++ file_name ++ "' is not in list"))).
Proof.
  split.
  - intros H. unfold predict. by rewrite H.
  - intros names H Hnot. unfold predict. rewrite H. cbn.
    by rewrite (list_index_None _ _ Hnot).
Qed.

Lemma predict_errors_witness :
  predict (init (PyInt 5) "raw") "a.py" = Raise (AttributeError "file_names_")
  /\ predict three_documents "d.py" = Raise (ValueError "'d.py' is not in list").
Proof.
  split.
  - exact (proj1 (predict_errors (init (PyInt 5) "raw") "a.py") eq_refl).
  - apply (proj2 (predict_errors three_documents "d.py") ["a.py"; "b.py"; "c.py"] eq_refl).
    rewrite !elem_of_cons, elem_of_nil. intros [?|[?|[?|[]]]]; congruence.
Defined.

(** The answer of a successful [predict], taken apart. *)
Lemma predict_Ok_inv (s : ExampleRecommender) (file_name : string)
    (recommendations : list string) :
  predict s file_name = Ok recommendations ->
  exists names item_id m row stop,
    file_names_ s = Some names
    /\ list_index file_name names = Some item_id
    /\ similarity_matrix_ s = Some m
    /\ m !! item_id = Some row
    /\ slice_stop (n_examples s) = Ok stop
    /\ Forall2 (fun i x => names !! i = Some x)
         (py_slice (sorted_items row) 1 stop).*1 recommendations.
Proof.
  unfold predict.
  destruct (file_names_ s) as [names|]; cbn; [|discriminate].
  destruct (list_index file_name names) as [item_id|] eqn:Hidx; cbn; [|discriminate].
  destruct (similarity_matrix_ s) as [m|]; cbn; [|discriminate].
  destruct (getitem "index out of bounds" m item_id) as [row|] eqn:Hrow;
    cbn; [|discriminate].
  assert (Hrow' : m !! item_id = Some row).
  { unfold getitem in Hrow. destruct (m !! item_id); congruence. }
  destruct (slice_stop (n_examples s)) as [stop|]; cbn; [|discriminate].
  intros H. exists names, item_id, m, row, stop. repeat split; try done.
  clear Hrow Hrow'. revert recommendations H.
  generalize ((py_slice (sorted_items row) 1 stop).*1). intros idxs.
  induction idxs as [|i idxs IH]; intros recs H.
  - injection H as <-. constructor.
  - change (mapM ?f (i :: idxs)) with (y ← f i; k ← mapM f idxs; mret (y :: k)) in H.
    destruct (getitem "list index out of range" names i) as [x|] eqn:Hg;
      cbn in H; [|discriminate].
    assert (Hx : names !! i = Some x).
    { unfold getitem in Hg. destruct (names !! i); congruence. }
    destruct (mapM (getitem "list index out of range" names) idxs) as [k|] eqn:Hk;
      cbn in H; [|discriminate].
    injection H as <-. constructor; [done | by apply IH].
Qed.

Lemma fst_enumerate_from {A} (s : nat) (l : list A) :
  (enumerate_from s l).*1 = seq s (length l).
Proof. revert s. induction l as [|x l IH]; intros s; simpl; [done|]. by rewrite IH. Qed.

(** Every position occurs once in the ranking. *)
Lemma NoDup_sorted_items (row : list float) : NoDup (sorted_items row).*1.
Proof.
  unfold sorted_items, enumerate.
  rewrite sorted_reverse_Permutation, fst_enumerate_from. apply NoDup_seq.
Qed.

Lemma py_slice_sublist {A} (l : list A) (start stop : Z) :
  py_slice l start stop `sublist_of` l.
Proof.
  unfold py_slice. etrans; [apply sublist_take | apply sublist_drop].
Qed.

Lemma NoDup_lookups (names : list string) (idxs : list nat) (out : list string) :
  NoDup names -> NoDup idxs ->
  Forall2 (fun i x => names !! i = Some x) idxs out -> NoDup out.
Proof.
  intros Hn Hi H. induction H as [|i x idxs out Hx H IH]; [constructor|].
  apply NoDup_cons in Hi as [Hni Hi]. apply NoDup_cons. split; [|by apply IH].
  intros Hin. apply Hni. clear IH Hi Hni.
  induction H as [|j y idxs out Hy H IH]; [by apply elem_of_nil in Hin|].
  apply elem_of_cons in Hin as [->|Hin].
  - rewrite (NoDup_lookup names i j y Hn Hx Hy). left.
  - right. by apply IH.
Qed.

(** X5: what [predict] returns are names of the fitted list, taken at
    pairwise different positions; when the fitted names are pairwise
    different, no name is recommended twice. *)
Theorem predict_answers_fitted_names (s : ExampleRecommender) (file_name : string)
    (recommendations : list string) :
  predict s file_name = Ok recommendations ->
  exists names positions,
    file_names_ s = Some names
    /\ NoDup positions
    /\ Forall2 (fun i x => names !! i = Some x) positions recommendations
    /\ Forall (fun x => x ∈ names) recommendations
    /\ (NoDup names -> NoDup recommendations).
Proof.
  intros H.
  destruct (predict_Ok_inv _ _ _ H) as (names & i & m & row & stop & Hn & _ & _ & _ & _ & HF).
  exists names, (py_slice (sorted_items row) 1 stop).*1.
  assert (Hnd : NoDup (py_slice (sorted_items row) 1 stop).*1).
  { eapply sublist_NoDup; [apply NoDup_sorted_items|].
    apply fmap_sublist, py_slice_sublist. }
  split; [done|]. split; [done|]. split; [done|]. split.
  - clear -HF. induction HF as [|j x ? ? Hx _ IH]; constructor; [|done].
    by eapply list_elem_of_lookup_2.
  - intros Hnames. by eapply NoDup_lookups.
Qed.

Lemma predict_answers_fitted_names_witness :
  predict three_documents "b.py" = Ok ["a.py"; "c.py"]
  /\ exists names positions,
       file_names_ three_documents = Some names
       /\ NoDup positions
       /\ Forall2 (fun i x => names !! i = Some x) positions ["a.py"; "c.py"]
       /\ Forall (fun x => x ∈ names) ["a.py"; "c.py"]
       /\ (NoDup names -> NoDup ["a.py"; "c.py"]).
Proof.
  assert (H : predict three_documents "b.py" = Ok ["a.py"; "c.py"])
    by (vm_compute; reflexivity).
  split; [exact H|].
  exact (predict_answers_fitted_names three_documents "b.py" ["a.py"; "c.py"] H).
Defined.

Lemma elem_of_enumerate_from {A} (s : nat) (l : list A) (i : nat) (x : A) :
  (i, x) ∈ enumerate_from s l <-> (s <= i)%nat /\ l !! (i - s)%nat = Some x.
Proof.
  revert s. induction l as [|y l IH]; intros s; simpl.
  - rewrite elem_of_nil. split; [done | by intros [_ ?]].
  - rewrite elem_of_cons, IH. split.
    + intros [[= -> ->] | [Hle Hx]].
      * split; [lia|]. by rewrite Nat.sub_diag.
      * split; [lia|]. by replace (i - s)%nat with (S (i - S s)) by lia.
    + intros [Hle Hx]. destruct (decide (i = s)) as [->|Hne].
      * left. rewrite Nat.sub_diag in Hx. simpl in Hx. congruence.
      * right. split; [lia|].
        by replace (i - s)%nat with (S (i - S s)) in Hx by lia.
Qed.

Lemma elem_of_sorted_items (row : list float) (i : nat) (x : float) :
  (i, x) ∈ sorted_items row <-> row !! i = Some x.
Proof.
  unfold sorted_items, enumerate.
  rewrite sorted_reverse_Permutation, elem_of_enumerate_from, Nat.sub_0_r.
  split; [by intros [_ ?] | intros; split; [lia | done]].
Qed.

(** When the score of position [i] is strictly the greatest of the row,
    position [i] heads the ranking. *)
Lemma sorted_items_head (row : list float) (i : nat) (score : float) :
  Forall not_nan row ->
  row !! i = Some score ->
  (forall j t, j <> i -> row !! j = Some t -> (t <? score)%float = true) ->
  exists tl, sorted_items row = (i, score) :: tl.
Proof.
  intros Hnan Hi Htop.
  pose proof (sorted_reverse_enumerate_from 0 row Hnan) as Hs.
  fold (enumerate row) in Hs. fold (sorted_items row) in Hs.
  pose proof (proj2 (elem_of_sorted_items row i score) Hi) as Hin.
  destruct (sorted_items row) as [|[j t] tl] eqn:E; [by apply elem_of_nil in Hin|].
  exists tl. f_equal.
  assert (Hj : row !! j = Some t).
  { apply elem_of_sorted_items. rewrite E. left. }
  apply elem_of_cons in Hin as [Heq | Hin]; [done|].
  exfalso. apply StronglySorted_inv in Hs as [_ Hall].
  rewrite Forall_forall in Hall. specialize (Hall _ Hin).
  destruct (decide (j = i)) as [->|Hne].
  - assert (t = score) by congruence. subst t.
    destruct Hall as [Hlt | [_ Hlt]]; simpl in *; [|lia].
    pose proof (float_ltb_asym _ _ Hlt). congruence.
  - pose proof (Htop j t Hne Hj) as Hlt.
    destruct Hall as [Hlt' | [Heq _]]; simpl in *.
    + pose proof (float_ltb_asym _ _ Hlt). congruence.
    + pose proof (float_eqb_not_ltb _ _ Heq). congruence.
Qed.

Lemma py_slice_from_1_tail {A} (x : A) (l : list A) (stop : Z) :
  py_slice (x :: l) 1 stop ⊆ l.
Proof.
  unfold py_slice, slice_bound.
  destruct (1 <? 0)%Z eqn:E; [apply Z.ltb_lt in E; lia|].
  replace (Z.to_nat (Z.min 1 (Z.of_nat (length (x :: l))))) with 1%nat
    by (simpl length; lia).
  simpl drop. intros y Hy. by apply (subseteq_take _ _) in Hy.
Qed.

Lemma lookups_not_elem (names : list string) (ps : list nat) (out : list string)
    (x : string) (i : nat) :
  NoDup names -> names !! i = Some x -> i ∉ ps ->
  Forall2 (fun p y => names !! p = Some y) ps out -> x ∉ out.
Proof.
  intros Hnd Hx Hi HF. induction HF as [|p y ps out Hy _ IH].
  - apply not_elem_of_nil.
  - apply not_elem_of_cons in Hi as [Hne Hi].
    apply not_elem_of_cons. split; [|by apply IH].
    intros ->. apply Hne. by apply (NoDup_lookup names i p y).
Qed.

(** X6: when the fitted names are pairwise different, the similarity row
    of the query holds numbers and the score of the query in it is
    strictly greater than every other score, [predict] does not return the
    query. *)
Theorem predict_excludes_top_query (s : ExampleRecommender) (file_name : string)
    (names : list string) (m : list (list float)) (item_id : nat)
    (row : list float) (score : float) (recommendations : list string) :
  file_names_ s = Some names ->
  NoDup names ->
  list_index file_name names = Some item_id ->
  similarity_matrix_ s = Some m ->
  m !! item_id = Some row ->
  Forall not_nan row ->
  row !! item_id = Some score ->
  (forall j t, j <> item_id -> row !! j = Some t -> (t <? score)%float = true) ->
  predict s file_name = Ok recommendations ->
  file_name ∉ recommendations.
Proof.
  intros Hn Hnd Hidx Hm Hrow Hnan Hscore Htop Hp.
  destruct (predict_Ok_inv _ _ _ Hp)
    as (names' & i' & m' & row' & stop & Hn' & Hidx' & Hm' & Hrow' & _ & HF).
  assert (names' = names) by congruence. subst names'.
  assert (i' = item_id) by congruence. subst i'.
  assert (m' = m) by congruence. subst m'.
  assert (row' = row) by congruence. subst row'.
  destruct (sorted_items_head row item_id score Hnan Hscore Htop) as [tl Htl].
  pose proof (NoDup_sorted_items row) as Hpos. rewrite Htl in Hpos, HF.
  rewrite fmap_cons in Hpos. apply NoDup_cons in Hpos as [Hnotin _].
  assert (Hq : names !! item_id = Some file_name) by (by apply list_index_lookup).
  apply (lookups_not_elem names (py_slice ((item_id, score) :: tl) 1 stop).*1
           recommendations file_name item_id Hnd Hq); [|exact HF].
  intros Hpos. apply Hnotin.
  apply list_elem_of_fmap in Hpos as (p & -> & Hp').
  apply py_slice_from_1_tail in Hp'. apply list_elem_of_fmap. by exists p.
Qed.

Lemma predict_excludes_top_query_witness :
  predict three_documents "b.py" = Ok ["a.py"; "c.py"]
  /\ "b.py" ∉ ["a.py"; "c.py"].
Proof.
  assert (H : predict three_documents "b.py" = Ok ["a.py"; "c.py"])
    by (vm_compute; reflexivity).
  split; [exact H|].
  apply (predict_excludes_top_query three_documents "b.py" ["a.py"; "b.py"; "c.py"]
           [[1; 0.5; 0.5]; [0.5; 1; 0.25]; [0.5; 0.25; 1]]%float 1%nat
           [0.5; 1; 0.25]%float 1%float ["a.py"; "c.py"]);
    try reflexivity; try exact H.
  - repeat (apply NoDup_cons; split;
            [rewrite ?elem_of_cons, elem_of_nil; intuition congruence|]).
    apply NoDup_nil_2.
  - repeat constructor.
  - intros [|[|[|j]]] t Hj Ht.
    + injection Ht as <-. reflexivity.
    + congruence.
    + injection Ht as <-. reflexivity.
    + destruct j; discriminate Ht.
Defined.

(** ** [tfidf_transformer]: shape, sparsity and floating-point errors *)

Section TfIdfShape.

Variable np_log : float -> float.

(** X7: the transformed matrix has the shape of the input and one row per
    input row, and a row of it stores no column that the same row of the
    input does not store: the transformer never fills an empty position. *)
Theorem tfidf_keeps_shape_and_sparsity (X : csr_matrix) (i j : nat) :
  (i < fst (shape X))%nat ->
  shape (tfidf_transformer np_log (Sparse X)) = shape X
  /\ length (csr_rows (tfidf_transformer np_log (Sparse X))) = fst (shape X)
  /\ (j ∈ (csr_row (tfidf_transformer np_log (Sparse X)) i).*1 -> j ∈ (csr_row X i).*1)
  /\ (assoc_lookup j (csr_row X i) = None ->
      csr_entry (tfidf_transformer np_log (Sparse X)) i j = 0%float).
Proof.
  intros Hi.
  assert (Hsh : shape (tfidf_transformer np_log (Sparse X)) = shape X) by reflexivity.
  assert (Hrow : exists row,
             idf_scaled_rows np_log X !! i = Some row
             /\ csr_row (tfidf_transformer np_log (Sparse X)) i
                = astype_row (divide_row row (row_norm row)).1).
  { pose proof (csr_row_lookup (tfidf_transformer np_log (Sparse X)) i) as Hl.
    rewrite Hsh in Hl. specialize (Hl Hi).
    rewrite csr_rows_tfidf, list_lookup_fmap in Hl.
    destruct (idf_scaled_rows np_log X !! i) as [row|] eqn:E; [|discriminate].
    exists row. split; [done|].
    cbn [fmap option_fmap option_map] in Hl. by injection Hl as <-. }
  destruct Hrow as (row & Hscaled & Hrow).
  assert (Hkeys : j ∈ (csr_row (tfidf_transformer np_log (Sparse X)) i).*1 ->
                  j ∈ (csr_row X i).*1).
  { rewrite Hrow, astype_row_keys, divide_row_keys, sort_indices_keys.
    unfold idf_scaled_rows in Hscaled.
    rewrite list_lookup_fmap, (csr_row_lookup X i Hi) in Hscaled.
    cbn [fmap option_fmap option_map] in Hscaled. injection Hscaled as <-.
    apply idf_scale_row_keys. }
  split; [exact Hsh|]. split; [|split; [exact Hkeys|]].
  - rewrite csr_rows_tfidf, length_fmap. apply length_idf_scaled_rows.
  - intros Hnone. unfold csr_entry.
    destruct (assoc_lookup j (csr_row (tfidf_transformer np_log (Sparse X)) i))
      as [v|] eqn:E; [|done].
    exfalso. apply assoc_lookup_None in Hnone. apply Hnone, Hkeys.
    apply assoc_lookup_elem_of in E. apply list_elem_of_fmap. by exists (j, v).
Qed.

Lemma np_reciprocal_divide_by_zero (norm : float) :
  FPDivideByZero ∈ (np_true_divide 1 norm).2 <-> PrimFloat.is_zero norm = true.
Proof.
  unfold np_true_divide. simpl.
  change (PrimFloat.is_finite 1) with true. change (nonzero 1) with true.
  rewrite !andb_true_r.
  destruct (PrimFloat.is_zero norm).
  - split; [done | intros _; left].
  - split; [|done].
    destruct (PrimFloat.is_nan (1 / norm) && _); rewrite ?elem_of_cons, elem_of_nil;
      intuition congruence.
Qed.

Lemma divide_row_errors {T} `{Dtype T} (row : list (nat * T)) (norm : float) :
  (divide_row row norm).2 = (np_true_divide 1 norm).2.
Proof. unfold divide_row. by destruct (np_true_divide 1 norm). Qed.

(** X8: while the rows are divided by their norms, numpy signals a
    division by zero exactly when some idf-scaled row has norm zero. *)
Theorem tfidf_divide_by_zero_iff (X : csr_matrix) :
  FPDivideByZero ∈ tfidf_fp_errors np_log (Sparse X)
  <-> exists row, row ∈ idf_scaled_rows np_log X
                  /\ PrimFloat.is_zero (row_norm row) = true.
Proof.
  rewrite tfidf_fp_errors_rows, list_elem_of_In, in_concat. split.
  - intros (errs & Herrs & Hin).
    apply list_elem_of_In, list_elem_of_fmap in Herrs as (row & -> & Hrow).
    exists row. split; [done|].
    apply np_reciprocal_divide_by_zero. apply list_elem_of_In in Hin.
    by rewrite divide_row_errors in Hin.
  - intros (row & Hrow & Hz).
    exists (divide_row row (row_norm row)).2. split.
    + apply list_elem_of_In, list_elem_of_fmap. by exists row.
    + apply list_elem_of_In. rewrite divide_row_errors.
      by apply np_reciprocal_divide_by_zero.
Qed.

End TfIdfShape.

Lemma tfidf_keeps_shape_and_sparsity_witness :
  (1 < fst (shape four_documents))%nat
  /\ shape (tfidf_transformer log_stand_in (Sparse four_documents)) = (4, 3)%nat
  /\ assoc_lookup 1 (csr_row four_documents 1) = None
  /\ csr_entry (tfidf_transformer log_stand_in (Sparse four_documents)) 1 1 = 0%float.
Proof.
  assert (H : (1 < fst (shape four_documents))%nat) by (simpl; lia).
  pose proof (tfidf_keeps_shape_and_sparsity log_stand_in four_documents 1 1 H)
    as (Hs & _ & _ & Hz).
  split; [exact H|]. split; [exact Hs|]. split; [reflexivity | exact (Hz eq_refl)].
Defined.

Lemma tfidf_divide_by_zero_iff_witness :
  (exists row, row ∈ idf_scaled_rows log_stand_in cat_and_empty
               /\ PrimFloat.is_zero (row_norm row) = true)
  /\ FPDivideByZero ∈ tfidf_fp_errors log_stand_in (Sparse cat_and_empty).
Proof.
  assert (H : exists row, row ∈ idf_scaled_rows log_stand_in cat_and_empty
                          /\ PrimFloat.is_zero (row_norm row) = true).
  { exists []. split; [|reflexivity].
    apply list_elem_of_lookup. exists 1%nat. reflexivity. }
  split; [exact H|].
  exact (proj2 (tfidf_divide_by_zero_iff log_stand_in cat_and_empty) H).
Defined.

(** ** [cosine_similarity]: shape, empty rows, symmetry *)

Lemma SFmul_comm (prec emax : Z) (x y : spec_float) :
  SFmul prec emax x y = SFmul prec emax y x.
Proof.
  destruct x as [sx|sx| |sx mx ex], y as [sy|sy| |sy my ey]; simpl;
    rewrite ?(xorb_comm sx sy), ?(Pos.mul_comm mx my), ?(Z.add_comm ex ey);
    reflexivity.
Qed.

Lemma float_mul_comm (x y : float) : (x * y)%float = (y * x)%float.
Proof.
  rewrite <- (SF2Prim_Prim2SF (x * y)), <- (SF2Prim_Prim2SF (y * x)).
  rewrite !FloatAxioms.mul_spec. unfold SF64mul. by rewrite SFmul_comm.
Qed.

Lemma zip_fmap_r_pairs (ks : list nat) (vs : list float) (f : float -> float) :
  zip ks (f <$> vs) = (fun kv => (kv.1, f kv.2)) <$> zip ks vs.
Proof.
  revert vs. induction ks as [|k ks IH]; intros [|v vs]; simpl; try done.
  by rewrite IH.
Qed.

(** The rows of [X / s] are the rows of [X] with each value multiplied by
    the reciprocal of [s]. *)
Lemma csr_row_divide_scalar (X : csr_matrix) (s : float) (i : nat) :
  csr_row (divide_scalar X s) i
  = (fun kv => (kv.1, (kv.2 * (np_true_divide 1 s).1)%float)) <$> csr_row X i.
Proof.
  unfold csr_row, divide_scalar. simpl.
  by rewrite zip_fmap_r_pairs, fmap_take, fmap_drop.
Qed.

Lemma csr_rows_divide_scalar (X : csr_matrix) (s : float) :
  csr_rows (divide_scalar X s)
  = (fun row : list (nat * float) =>
       (fun kv : nat * float => (kv.1, (kv.2 * (np_true_divide 1 s).1)%float)) <$> row)
      <$> csr_rows X.
Proof.
  unfold csr_rows. simpl. rewrite <- list_fmap_compose.
  apply list_fmap_ext. intros k i _. apply csr_row_divide_scalar.
Qed.

Lemma length_dense_row (n : nat) (row : list (nat * float)) :
  length (dense_row n row) = n.
Proof. unfold dense_row. by rewrite length_fmap, length_seq. Qed.

Lemma toarray_of_rows (rows : list (list (nat * float))) (n_cols : nat) :
  toarray (csr_of_rows rows (length rows, n_cols)) = dense_row n_cols <$> rows.
Proof. unfold toarray. by rewrite csr_rows_of_rows. Qed.

Lemma length_matmul_transposed (A B : csr_matrix) :
  length (matmul_transposed A B) = fst (shape A).
Proof. unfold matmul_transposed, csr_rows. by rewrite !length_fmap, length_seq. Qed.


Lemma cosine_similarity_self_rows (X : csr_matrix) :
  cosine_similarity X None
  = Ok (dense_row (fst (shape X))
          <$> matmul_transposed (divide_scalar X (frobenius_norm X))
                (divide_scalar X (frobenius_norm X))).
Proof.
  unfold cosine_similarity. simpl. rewrite Nat.eqb_refl. simpl.
  f_equal. rewrite <- toarray_of_rows. by rewrite length_matmul_transposed.
Qed.



Lemma assoc_lookup_filter_enumerate_from (s j : nat) (l : list float) :
  (s <= j)%nat ->
  assoc_lookup j (filter (fun js : nat * float => nonzero js.2) (enumerate_from s l))
  = x ← l !! (j - s)%nat; if nonzero x then Some x else None.
Proof.
  revert s. induction l as [|x l IH]; intros s Hs; [done|].
  simpl enumerate_from. rewrite filter_cons. simpl.
  destruct (decide (j = s)) as [Heq|Hne].
  - subst j. rewrite Nat.sub_diag. simpl.
    destruct (decide (nonzero x)) as [Hx|Hx].
    + apply Is_true_true in Hx. rewrite Hx. simpl. by rewrite Nat.eqb_refl.
    + apply Is_true_false in Hx. rewrite Hx.
      apply assoc_lookup_None. intros Hin.
      apply list_elem_of_fmap in Hin as ([k v] & Hk & Hin).
      apply list_elem_of_filter in Hin as [_ Hin].
      pose proof (enumerate_from_bounds (S s) l) as Hb.
      rewrite Forall_forall in Hb. specialize (Hb _ Hin). simpl in Hb, Hk. lia.
  - replace (j - s)%nat with (S (j - S s)) by lia. simpl.
    destruct (decide (nonzero x)) as [Hx|Hx].
    + simpl. destruct (j =? s)%nat eqn:E; [apply Nat.eqb_eq in E; lia|].
      apply IH. lia.
    + apply IH. lia.
Qed.

Lemma dense_row_lookup (n j : nat) (row : list (nat * float)) :
  (j < n)%nat -> dense_row n row !! j = Some (default 0%float (assoc_lookup j row)).
Proof. intros Hj. unfold dense_row. by rewrite list_lookup_fmap, lookup_seq_lt. Qed.

(** One entry of the self-similarity matrix: the sum of [sparse_dot] over
    the two normalized rows, or [0.0] when that sum is zero. *)
Lemma cosine_similarity_entry (X : csr_matrix) (i j : nat) :
  (i < fst (shape X))%nat -> (j < fst (shape X))%nat ->
  exists m, cosine_similarity X None = Ok m
            /\ matrix_entry m i j
               = Some (stored_or_zero
                         (sparse_dot (csr_row (divide_scalar X (frobenius_norm X)) i)
                                     (csr_row (divide_scalar X (frobenius_norm X)) j))).
Proof.
  intros Hi Hj. rewrite cosine_similarity_self_rows. eexists. split; [done|].
  set (Xn := divide_scalar X (frobenius_norm X)).
  assert (Hsh : fst (shape Xn) = fst (shape X)) by reflexivity.
  unfold matrix_entry, matmul_transposed.
  rewrite !list_lookup_fmap, (csr_row_lookup Xn i) by (by rewrite Hsh).
  cbn [fmap option_fmap option_map mbind option_bind].
  rewrite (dense_row_lookup _ _ _ Hj). f_equal.
  unfold enumerate. rewrite assoc_lookup_filter_enumerate_from by lia.
  rewrite Nat.sub_0_r, list_lookup_fmap, (csr_row_lookup Xn j) by (by rewrite Hsh).
  cbn [fmap option_fmap option_map mbind option_bind]. unfold stored_or_zero.
  by destruct (nonzero _).
Qed.

Lemma matrix_entry_bounds (X : csr_matrix) (m : list (list float)) (i j : nat) (a : float) :
  cosine_similarity X None = Ok m -> matrix_entry m i j = Some a ->
  (i < fst (shape X))%nat /\ (j < fst (shape X))%nat.
Proof.
  rewrite cosine_similarity_self_rows. intros [= <-]. unfold matrix_entry.
  destruct (_ !! i) as [r|] eqn:Hr; [|done]. simpl. intros Ha.
  split.
  - apply lookup_lt_Some in Hr.
    by rewrite length_fmap, length_matmul_transposed in Hr.
  - apply list_lookup_fmap_Some in Hr as (row & -> & _).
    apply lookup_lt_Some in Ha. by rewrite length_dense_row in Ha.
Qed.

Lemma foldl_dot_step_none (r1 r2 : list (nat * float)) (acc : float) :
  (forall kv, kv ∈ r1 -> assoc_lookup kv.1 r2 = None) ->
  foldl (dot_step r2) acc r1 = acc.
Proof.
  revert acc. induction r1 as [|kv r1 IH]; intros acc H; [done|]. simpl.
  unfold dot_step at 2. rewrite (H kv) by left. apply IH. intros kv' Hin. apply H. by right.
Qed.

Lemma foldl_dot_step_ext (r1 r2 r2' : list (nat * float)) (acc : float) :
  (forall kv, kv ∈ r1 -> assoc_lookup kv.1 r2 = assoc_lookup kv.1 r2') ->
  foldl (dot_step r2) acc r1 = foldl (dot_step r2') acc r1.
Proof.
  revert acc. induction r1 as [|kv r1 IH]; intros acc H; [done|]. simpl.
  unfold dot_step at 2 4. rewrite (H kv) by left.
  apply IH. intros kv' Hin. apply H. by right.
Qed.

Lemma sparse_dot_foldl (r1 r2 : list (nat * float)) :
  sparse_dot r1 r2 = foldl (dot_step r2) 0%float r1.
Proof. reflexivity. Qed.

(** An empty row has dot product zero with every row. *)
Lemma sparse_dot_nil_r (r : list (nat * float)) : sparse_dot r [] = 0%float.
Proof. rewrite sparse_dot_foldl. by apply foldl_dot_step_none. Qed.

Lemma assoc_lookup_cons_ne (j k : nat) (v : float) (row : list (nat * float)) :
  j <> k -> assoc_lookup j ((k, v) :: row) = assoc_lookup j row.
Proof. intros Hne. simpl. by destruct (Nat.eqb_spec j k). Qed.

Lemma assoc_lookup_above (k : nat) (row : list (nat * float)) :
  Forall (fun kv : nat * float => (k < kv.1)%nat) row -> assoc_lookup k row = None.
Proof.
  intros H. apply assoc_lookup_None. intros Hin.
  apply list_elem_of_fmap in Hin as (kv & -> & Hin).
  rewrite Forall_forall in H. specialize (H _ Hin). lia.
Qed.

Lemma foldl_dot_step_sym (n : nat) (r1 r2 : list (nat * float)) (acc : float) :
  (length r1 + length r2 <= n)%nat ->
  sorted_row r1 -> sorted_row r2 ->
  foldl (dot_step r2) acc r1 = foldl (dot_step r1) acc r2.
Proof.
  revert r1 r2 acc. induction n as [|n IH]; intros r1 r2 acc Hlen Hs1 Hs2.
  { destruct r1, r2; simpl in Hlen; try lia. done. }
  destruct r1 as [|[k1 v1] r1'].
  { simpl. symmetry. by apply foldl_dot_step_none. }
  destruct r2 as [|[k2 v2] r2'].
  { simpl. by apply foldl_dot_step_none. }
  apply StronglySorted_inv in Hs1 as [Hs1 Hk1].
  apply StronglySorted_inv in Hs2 as [Hs2 Hk2].
  simpl in Hk1, Hk2, Hlen.
  destruct (lt_eq_lt_dec k1 k2) as [[Hlt|Heq]|Hgt].
  - (* the first column of r1 is stored in r1 only *)
    change (foldl (dot_step ((k2, v2) :: r2')) acc ((k1, v1) :: r1'))
      with (foldl (dot_step ((k2, v2) :: r2'))
              (dot_step ((k2, v2) :: r2') acc (k1, v1)) r1').
    unfold dot_step at 2. simpl fst.
    rewrite (assoc_lookup_above k1 ((k2, v2) :: r2')).
    2: { constructor; [simpl; lia|]. eapply Forall_impl; [exact Hk2|]. simpl. intros; lia. }
    rewrite (IH r1' ((k2, v2) :: r2') acc) by (simpl; try lia; try done; by constructor).
    apply foldl_dot_step_ext. intros kv Hin. symmetry. apply assoc_lookup_cons_ne.
    apply elem_of_cons in Hin as [->|Hin]; [simpl; lia|].
    rewrite Forall_forall in Hk2. specialize (Hk2 _ Hin). lia.
  - subst k2.
    change (foldl (dot_step ((k1, v2) :: r2')) acc ((k1, v1) :: r1'))
      with (foldl (dot_step ((k1, v2) :: r2'))
              (dot_step ((k1, v2) :: r2') acc (k1, v1)) r1').
    change (foldl (dot_step ((k1, v1) :: r1')) acc ((k1, v2) :: r2'))
      with (foldl (dot_step ((k1, v1) :: r1'))
              (dot_step ((k1, v1) :: r1') acc (k1, v2)) r2').
    unfold dot_step at 2 4. simpl. rewrite Nat.eqb_refl.
    rewrite (float_mul_comm v2 v1).
    rewrite (foldl_dot_step_ext r1' ((k1, v2) :: r2') r2').
    2: { intros kv Hin. apply assoc_lookup_cons_ne.
         rewrite Forall_forall in Hk1. specialize (Hk1 _ Hin). lia. }
    rewrite (foldl_dot_step_ext r2' ((k1, v1) :: r1') r1').
    2: { intros kv Hin. apply assoc_lookup_cons_ne.
         rewrite Forall_forall in Hk2. specialize (Hk2 _ Hin). lia. }
    apply IH; [lia | done | done].
  - change (foldl (dot_step ((k1, v1) :: r1')) acc ((k2, v2) :: r2'))
      with (foldl (dot_step ((k1, v1) :: r1'))
              (dot_step ((k1, v1) :: r1') acc (k2, v2)) r2').
    unfold dot_step at 3. simpl fst.
    rewrite (assoc_lookup_above k2 ((k1, v1) :: r1')).
    2: { constructor; [simpl; lia|]. eapply Forall_impl; [exact Hk1|]. simpl. intros; lia. }
    rewrite <- (IH ((k1, v1) :: r1') r2' acc) by (simpl; try lia; try done; by constructor).
    symmetry. apply foldl_dot_step_ext. intros kv Hin. symmetry.
    apply assoc_lookup_cons_ne.
    apply elem_of_cons in Hin as [->|Hin]; [simpl; lia|].
    rewrite Forall_forall in Hk1. specialize (Hk1 _ Hin). lia.
Qed.

(** On rows with increasing column indices the dot product does not depend
    on the order of the two rows. *)
Lemma sparse_dot_sym (r1 r2 : list (nat * float)) :
  sorted_row r1 -> sorted_row r2 -> sparse_dot r1 r2 = sparse_dot r2 r1.
Proof. intros. rewrite !sparse_dot_foldl. by eapply foldl_dot_step_sym. Qed.

Lemma sorted_row_fmap (f : float -> float) (row : list (nat * float)) :
  sorted_row row -> sorted_row ((fun kv : nat * float => (kv.1, f kv.2)) <$> row).
Proof.
  unfold sorted_row. induction 1 as [|kv row Hs IH Hk]; simpl; constructor; [done|].
  apply Forall_fmap. eapply Forall_impl; [exact Hk|]. by intros [].
Qed.

(** X10: a document whose row stores nothing has similarity 0.0 with every
    document, itself included: its row and its column of the
    self-similarity matrix are zero. *)
Theorem cosine_similarity_empty_row (X : csr_matrix) (i k : nat) :
  (i < fst (shape X))%nat -> (k < fst (shape X))%nat ->
  csr_row X i = [] ->
  exists m, cosine_similarity X None = Ok m
            /\ matrix_entry m i k = Some 0%float
            /\ matrix_entry m k i = Some 0%float.
Proof.
  intros Hi Hk Hrow.
  destruct (cosine_similarity_entry X i k Hi Hk) as (m & Hm & Hik).
  destruct (cosine_similarity_entry X k i Hk Hi) as (m' & Hm' & Hki).
  assert (m' = m) by congruence. subst m'.
  exists m. split; [done|].
  rewrite (csr_row_divide_scalar X _ i), Hrow in Hik, Hki.
  rewrite fmap_nil in Hik, Hki. rewrite sparse_dot_nil_r in Hki.
  split; [exact Hik | exact Hki].
Qed.

Lemma cosine_similarity_empty_row_witness :
  ((2 < fst (shape four_documents))%nat /\ (0 < fst (shape four_documents))%nat
   /\ csr_row four_documents 2 = [])
  /\ exists m, cosine_similarity four_documents None = Ok m
               /\ matrix_entry m 2 0 = Some 0%float
               /\ matrix_entry m 0 2 = Some 0%float.
Proof.
  assert (H1 : (2 < fst (shape four_documents))%nat) by (simpl; lia).
  assert (H2 : (0 < fst (shape four_documents))%nat) by (simpl; lia).
  assert (H3 : csr_row four_documents 2 = []) by reflexivity.
  split; [by repeat split|].
  exact (cosine_similarity_empty_row four_documents 2 0 H1 H2 H3).
Defined.

(** X11: when the column indices of every row increase, the
    self-similarity matrix is symmetric, entry for entry as floats. *)
Theorem cosine_similarity_symmetric (X : csr_matrix) (m : list (list float))
    (i j : nat) (a b : float) :
  Forall sorted_row (csr_rows X) ->
  cosine_similarity X None = Ok m ->
  matrix_entry m i j = Some a ->
  matrix_entry m j i = Some b ->
  a = b.
Proof.
  intros Hs Hm Ha Hb.
  destruct (matrix_entry_bounds X m i j a Hm Ha) as [Hi Hj].
  destruct (cosine_similarity_entry X i j Hi Hj) as (m1 & Hm1 & Hij).
  destruct (cosine_similarity_entry X j i Hj Hi) as (m2 & Hm2 & Hji).
  assert (m1 = m) by congruence. assert (m2 = m) by congruence. subst m1 m2.
  rewrite Ha in Hij. rewrite Hb in Hji.
  injection Hij as ->. injection Hji as ->. f_equal.
  rewrite !csr_row_divide_scalar. rewrite Forall_forall in Hs.
  apply sparse_dot_sym;
    apply (sorted_row_fmap (fun v => (v * (np_true_divide 1 (frobenius_norm X)).1)%float)),
      Hs.
  - apply list_elem_of_lookup_2 with (i := i). by apply csr_row_lookup.
  - apply list_elem_of_lookup_2 with (i := j). by apply csr_row_lookup.
Qed.

Lemma sorted_rows_four_documents : Forall sorted_row (csr_rows four_documents).
Proof.
  assert (E : csr_rows four_documents
              = [[(1%nat, 1%float); (2%nat, 2%float)];
                 [(0%nat, 1%float); (2%nat, 1%float)]; [];
                 [(0%nat, 1%float); (1%nat, 2%float)]])
    by reflexivity.
  rewrite E. unfold sorted_row.
  repeat (constructor; simpl; try lia).
Qed.

Lemma cosine_similarity_symmetric_witness :
  Forall sorted_row (csr_rows four_documents)
  /\ exists m a b,
       cosine_similarity four_documents None = Ok m
       /\ matrix_entry m 0 1 = Some a
       /\ matrix_entry m 1 0 = Some b
       /\ a = b.
Proof.
  split; [exact sorted_rows_four_documents|].
  destruct (cosine_similarity four_documents None) as [m|] eqn:Hm;
    [|vm_compute in Hm; discriminate Hm].
  destruct (matrix_entry m 0 1) as [a|] eqn:Ha.
  2: { exfalso. vm_compute in Hm. injection Hm as <-. vm_compute in Ha. discriminate Ha. }
  destruct (matrix_entry m 1 0) as [b|] eqn:Hb.
  2: { exfalso. vm_compute in Hm. injection Hm as <-. vm_compute in Hb. discriminate Hb. }
  exists m, a, b. split; [reflexivity|]. split; [exact Ha|]. split; [exact Hb|].
  exact (cosine_similarity_symmetric four_documents m 0 1 a b
           sorted_rows_four_documents Hm Ha Hb).
Defined.

(** ** [tfidf_transformer] on an ndarray *)

Lemma csr_row_of_dense (rows : list (list float)) (i : nat) (r : list float) :
  rows !! i = Some r ->
  csr_row (csr_of_dense rows) i
  = filter (fun jv : nat * float => nonzero jv.2) (enumerate r).
Proof.
  intros Hr.
  assert (Hi : (i < fst (shape (csr_of_dense rows)))%nat).
  { simpl. by eapply lookup_lt_Some. }
  pose proof (csr_row_lookup (csr_of_dense rows) i Hi) as Hl.
  unfold csr_of_dense in Hl at 1.
  rewrite csr_rows_of_rows in Hl by (by rewrite length_fmap).
  rewrite list_lookup_fmap, Hr in Hl. simpl in Hl. congruence.
Qed.

Lemma assoc_lookup_filter_enumerate (j : nat) (r : list float) :
  assoc_lookup j (filter (fun jv : nat * float => nonzero jv.2) (enumerate r))
  = x ← r !! j; if nonzero x then Some x else None.
Proof.
  unfold enumerate. rewrite assoc_lookup_filter_enumerate_from by lia.
  by rewrite Nat.sub_0_r.
Qed.

(** X12: the conversion of an ndarray to CSR loses nothing: every entry
    reads back as it was, a zero of either sign as [0.0]. *)
Theorem csr_of_dense_entry (rows : list (list float)) (i j : nat)
    (r : list float) (x : float) :
  rows !! i = Some r -> r !! j = Some x ->
  csr_entry (csr_of_dense rows) i j = stored_or_zero x.
Proof.
  intros Hr Hx. unfold csr_entry.
  rewrite (csr_row_of_dense rows i r Hr), assoc_lookup_filter_enumerate, Hx. simpl.
  unfold stored_or_zero. by destruct (nonzero x).
Qed.

Lemma csr_of_dense_entry_witness :
  ([[0; 1; 2]; [1; 0; 1]]%float !! 1%nat = Some [1; 0; 1]%float
   /\ [1; 0; 1]%float !! 2%nat = Some 1%float)
  /\ csr_entry (csr_of_dense [[0; 1; 2]; [1; 0; 1]]%float) 1 2 = stored_or_zero 1.
Proof.
  split; [split; reflexivity|].
  exact (csr_of_dense_entry [[0; 1; 2]; [1; 0; 1]]%float 1 2 [1; 0; 1]%float 1%float
           eq_refl eq_refl).
Defined.

Lemma distinct_NoDup (l : list nat) : NoDup l -> distinct l = true.
Proof.
  induction 1 as [|x l Hx _ IH]; [done|]. simpl. rewrite IH, andb_true_r.
  apply negb_true_iff, not_true_iff_false. intros Hex.
  apply existsb_exists in Hex as (y & Hy & E). apply Nat.eqb_eq in E as <-.
  by apply Hx, list_elem_of_In.
Qed.

Lemma distinct_filter_enumerate (r : list float) :
  distinct (filter (fun jv : nat * float => nonzero jv.2) (enumerate r)).*1 = true.
Proof.
  apply distinct_NoDup.
  eapply sublist_NoDup; [|apply fmap_sublist, sublist_filter].
  unfold enumerate. rewrite fst_enumerate_from. apply NoDup_seq.
Qed.

Lemma length_filter_fmap {A B} (f : A -> B) (P : B -> Prop) `{forall x, Decision (P x)}
    (l : list A) :
  length (filter P (f <$> l)) = length (filter (fun x => P (f x)) l).
Proof.
  induction l as [|x l IH]; [done|]. rewrite fmap_cons, !filter_cons.
  destruct (decide (P (f x))); simpl; by rewrite IH.
Qed.

Lemma length_filter_ext {A} (P Q : A -> Prop) `{forall x, Decision (P x)}
    `{forall x, Decision (Q x)} (l : list A) :
  (forall x, P x <-> Q x) -> length (filter P l) = length (filter Q l).
Proof.
  intros HPQ. induction l as [|x l IH]; [done|]. rewrite !filter_cons.
  destruct (decide (P x)) as [HP|HP], (decide (Q x)) as [HQ|HQ]; simpl;
    rewrite ?IH; try done; exfalso; [apply HQ, HPQ | apply HP, HPQ]; done.
Qed.

Section TfIdfDense.

Variable np_log : float -> float.

(** X13: for an ndarray argument, df[j] is the number of rows whose entry
    [j] is not zero, and idf[j] = log((n_rows + 1) / (df[j] + 1)) + 1, for
    every column [j] of the first row. *)
Theorem tfidf_dense_document_frequency (rows : list (list float)) (j : nat) :
  (j < length (default [] (head rows)))%nat ->
  let df := length (filter (fun r => nonzero_at j r = true) rows) in
  document_frequency (csr_of_dense rows) !! j = Some df
  /\ idf_vector np_log (csr_of_dense rows) !! j
     = Some (np_log (float_of_nat (length rows + 1) / (float_of_nat df + 1)) + 1)%float
  /\ tfidf_transformer np_log (NdArray rows)
     = tfidf_transformer np_log (Sparse (csr_of_dense rows)).
Proof.
  intros Hj df.
  assert (Hdf : document_frequency (csr_of_dense rows) !! j = Some df).
  { unfold document_frequency. rewrite bincount_lookup by done. f_equal.
    unfold csr_of_dense, csr_of_rows. simpl indices.
    rewrite count_occ_concat_rows.
    2: { apply forallb_forall. intros r Hr.
         apply list_elem_of_In, list_elem_of_fmap in Hr as (r0 & -> & _).
         apply distinct_filter_enumerate. }
    rewrite length_filter_fmap. unfold df. apply length_filter_ext.
    intros r. rewrite assoc_lookup_filter_enumerate. unfold nonzero_at.
    destruct (r !! j) as [x|]; simpl.
    - destruct (nonzero x); split; intros H; try done; by destruct H.
    - split; intros H; [by destruct H | done]. }
  split; [exact Hdf|]. split; [|reflexivity].
  unfold idf_vector, smooth_idf. rewrite !list_lookup_fmap, Hdf.
  reflexivity.
Qed.

End TfIdfDense.

Lemma tfidf_dense_document_frequency_witness :
  (1 < length (default [] (head [[0; 1; 2]; [1; 0; 1]; [1; 2; 0]]%float)))%nat
  /\ document_frequency (csr_of_dense [[0; 1; 2]; [1; 0; 1]; [1; 2; 0]]%float) !! 1%nat
     = Some 2%nat.
Proof.
  assert (H : (1 < length (default [] (head [[0; 1; 2]; [1; 0; 1]; [1; 2; 0]]%float)))%nat)
    by (simpl; lia).
  split; [exact H|].
  exact (proj1 (tfidf_dense_document_frequency log_stand_in
                  [[0; 1; 2]; [1; 0; 1]; [1; 2; 0]]%float 1 H)).
Defined.

(** ** [tfidf_transformer] on a float64 counts matrix *)

Lemma nonzero_add_zero_l (p : float) : nonzero (0 + p) = nonzero p.
Proof.
  unfold nonzero, PrimFloat.is_zero.
  rewrite !FloatAxioms.eqb_spec, FloatAxioms.add_spec.
  change (Prim2SF 0) with (S754_zero false). change (Prim2SF zero) with (S754_zero false).
  by destruct (Prim2SF p) as [[]|[]| |[] m e].
Qed.

Lemma float_add_zero_l (p : float) : nonzero p = true -> (0 + p)%float = p.
Proof.
  intros Hp. transitivity (SF2Prim (Prim2SF p)); [|apply SF2Prim_Prim2SF].
  rewrite <- (SF2Prim_Prim2SF (0 + p)). f_equal. rewrite FloatAxioms.add_spec.
  unfold nonzero, PrimFloat.is_zero in Hp. rewrite FloatAxioms.eqb_spec in Hp.
  change (Prim2SF 0) with (S754_zero false). change (Prim2SF zero) with (S754_zero false) in Hp.
  by destruct (Prim2SF p) as [[]|[]| |[] m e].
Qed.

Lemma NoDup_distinct (l : list nat) : distinct l = true -> NoDup l.
Proof.
  induction l as [|x l IH]; simpl; [constructor|].
  rewrite andb_true_iff, negb_true_iff. intros [Hx Hl].
  constructor; [|by apply IH].
  intros Hin. apply not_true_iff_false in Hx. apply Hx, existsb_exists.
  exists x. split; [by apply list_elem_of_In | apply Nat.eqb_refl].
Qed.

Lemma assoc_lookup_NoDup (j : nat) (row : list (nat * float)) (v : float) :
  NoDup row.*1 -> (j, v) ∈ row -> assoc_lookup j row = Some v.
Proof.
  induction row as [|[k w] row IH]; simpl; intros Hnd Hin; [by apply elem_of_nil in Hin|].
  apply NoDup_cons in Hnd as [Hk Hnd]. apply elem_of_cons in Hin as [Heq|Hin].
  - injection Heq as -> ->. by rewrite Nat.eqb_refl.
  - destruct (j =? k)%nat eqn:E; [|by apply IH].
    apply Nat.eqb_eq in E as ->. exfalso. apply Hk.
    apply list_elem_of_fmap. by exists (k, v).
Qed.

Lemma assoc_lookup_Permutation (j : nat) (row row' : list (nat * float)) :
  NoDup row.*1 -> row ≡ₚ row' -> assoc_lookup j row' = assoc_lookup j row.
Proof.
  intros Hnd Hp. destruct (assoc_lookup j row) as [v|] eqn:E.
  - apply assoc_lookup_NoDup; [by rewrite <- Hp|].
    rewrite <- Hp. by apply assoc_lookup_elem_of.
  - apply assoc_lookup_None. rewrite <- Hp. by apply assoc_lookup_None.
Qed.

Lemma assoc_lookup_fmap_values (f : float -> float) (j : nat) (row : list (nat * float)) :
  assoc_lookup j ((fun kv => (kv.1, f kv.2)) <$> row) = f <$> assoc_lookup j row.
Proof.
  induction row as [|[k w] row IH]; simpl; [done|].
  by destruct (j =? k)%nat.
Qed.

Lemma astype_row_float64 (row : list (nat * float)) : astype_row (T := float) row = row.
Proof.
  unfold astype_row. rewrite <- (list_fmap_id row) at 2.
  apply list_fmap_ext. by intros _ [k v] _.
Qed.

Section ProductOfDistinctColumns.

Context {T : Type} `{Dtype T}.

Lemma add_to_sums_fresh (k : nat) (p : T) (sums : list (nat * T)) :
  k ∉ sums.*1 -> add_to_sums k p sums = sums ++ [(k, dt_add dt_zero p)].
Proof.
  induction sums as [|[k' s] sums IH]; simpl; [done|].
  rewrite not_elem_of_cons. intros [Hne Hk].
  apply Nat.eqb_neq in Hne. rewrite Hne. by rewrite IH.
Qed.

(** The sums of a row that stores each column once. *)
Lemma foldl_idf_scale_step_distinct (idf_diag : list T) (row sums : list (nat * T))
    (j : nat) (y : T) :
  NoDup row.*1 -> (forall k, k ∈ row.*1 -> k ∉ sums.*1) ->
  (j, y) ∈ foldl (idf_scale_step idf_diag) sums row
  <-> (j, y) ∈ sums
      \/ exists v w, (j, v) ∈ row /\ idf_diag !! j = Some w /\ dt_nonzero w = true
                     /\ y = dt_add dt_zero (dt_mul v w).
Proof.
  revert sums. induction row as [|[k v] row IH]; intros sums Hnd Hfresh.
  - simpl. split; [by left|]. intros [?|(v & w & Hin & _)]; [done|].
    by apply elem_of_nil in Hin.
  - apply NoDup_cons in Hnd as [Hk Hnd].
    assert (Hks : k ∉ sums.*1) by (apply Hfresh; left).
    simpl foldl. rewrite IH; [|done|].
    2: { intros k' Hk' Hin. apply idf_scale_step_keys in Hin as [->|Hin]; [done|].
         revert Hin. apply Hfresh. by right. }
    unfold idf_scale_step at 1. simpl.
    destruct (idf_diag !! k) as [w|] eqn:Ew.
    2: { split; (intros [?|(v' & w' & Hin & Hw & Hr)]; [by left|right]).
         - exists v', w'. split; [by right | done].
         - apply elem_of_cons in Hin as [Heq|Hin]; [injection Heq as -> ->; congruence|].
           by exists v', w'. }
    destruct (dt_nonzero w) eqn:Enz.
    + rewrite add_to_sums_fresh by done. rewrite elem_of_app, list_elem_of_singleton.
      split.
      * intros [[?|Heq]|(v' & w' & Hin & Hr)]; [by left| |].
        -- injection Heq as -> ->. right. exists v, w. split; [left | done].
        -- right. exists v', w'. split; [by right | done].
      * intros [?|(v' & w' & Hin & Hw & Hnz & ->)]; [by left; left|].
        apply elem_of_cons in Hin as [Heq|Hin].
        -- injection Heq as -> ->. left. right. congruence.
        -- right. by exists v', w'.
    + split; (intros [?|(v' & w' & Hin & Hw & Hnz & Hr)]; [by left|right]).
      * exists v', w'. split; [by right | done].
      * apply elem_of_cons in Hin as [Heq|Hin]; [injection Heq as -> ->; congruence|].
        by exists v', w'.
Qed.

Lemma idf_scale_row_distinct (idf_diag : list T) (row : list (nat * T)) (j : nat) (y : T) :
  NoDup row.*1 ->
  (j, y) ∈ idf_scale_row idf_diag row
  <-> dt_nonzero y = true
      /\ exists v w, (j, v) ∈ row /\ idf_diag !! j = Some w /\ dt_nonzero w = true
                     /\ y = dt_add dt_zero (dt_mul v w).
Proof.
  intros Hnd. unfold idf_scale_row.
  rewrite list_elem_of_filter, elem_of_reverse, foldl_idf_scale_step_distinct; [|done|].
  2: { intros k _. apply not_elem_of_nil. }
  simpl. rewrite elem_of_nil. rewrite Is_true_true. tauto.
Qed.

End ProductOfDistinctColumns.

Section TfIdfFloat64.

Variable np_log : float -> float.

(** X18: on a float64 counts matrix that stores each nonzero entry once,
    df[j] is the number of rows with a nonzero entry in column j,
    idf[j] = log((n_samples + 1) / (df[j] + 1)) + 1, the entry stored in
    column j is multiplied by idf[j] (the product is stored when idf[j]
    and the product differ from zero), and every stored entry of the
    result is the scaled entry times the reciprocal of the norm of its
    scaled row. *)
Theorem tfidf_float64_scales_by_idf (X : csr_matrix) :
  csr_wf X = true ->
  let n_samples := fst (shape X) in
  let n_features := snd (shape X) in
  let idf j := (np_log (float_of_nat (n_samples + 1)
                        / (float_of_nat (rows_with_nonzero X j) + 1)) + 1)%float in
  (forall j, (j < n_features)%nat ->
     document_frequency X !! j = Some (rows_with_nonzero X j))
  /\ (forall j, (j < n_features)%nat -> idf_vector np_log X !! j = Some (idf j))
  /\ (forall i j, (i < n_samples)%nat -> (j < n_features)%nat ->
        forall row, idf_scaled_rows np_log X !! i = Some row ->
        assoc_lookup j row =
        match assoc_lookup j (csr_row X i) with
        | Some v => if nonzero (idf j) && nonzero (v * idf j)
                    then Some (v * idf j)%float else None
        | None => None
        end)
  /\ (forall i j, (i < n_samples)%nat ->
        forall row, idf_scaled_rows np_log X !! i = Some row ->
        assoc_lookup j (csr_row (tfidf_transformer np_log (Sparse X)) i)
        = (fun v => v * (1 / row_norm row))%float <$> assoc_lookup j row).
Proof.
  intros Hwf n_samples n_features idf.
  assert (Hdf : forall j, (j < n_features)%nat ->
                 document_frequency X !! j = Some (rows_with_nonzero X j)).
  { intros j Hj. by apply document_frequency_rows. }
  assert (Hidf : forall j, (j < n_features)%nat ->
                  idf_vector np_log X !! j = Some (idf j)).
  { intros j Hj. unfold idf_vector, smooth_idf.
    rewrite !list_lookup_fmap, (Hdf j Hj). reflexivity. }
  split; [exact Hdf|]. split; [exact Hidf|]. split.
  - intros i j Hi Hj row Hrow.
    unfold idf_scaled_rows in Hrow.
    rewrite list_lookup_fmap, (csr_row_lookup X i Hi) in Hrow.
    cbn [fmap option_fmap option_map] in Hrow. injection Hrow as <-.
    assert (Hnd : NoDup (csr_row X i).*1) by (by apply NoDup_distinct, csr_wf_row_distinct).
    assert (Hdiag : idf_diagonal (T := float) (idf_vector np_log X) (snd (shape X)) !! j
                    = Some (idf j)).
    { unfold idf_diagonal. rewrite list_lookup_fmap, lookup_take_lt by done.
      by rewrite (Hidf j Hj). }
    destruct (assoc_lookup j (csr_row X i)) as [v|] eqn:Ev.
    + apply assoc_lookup_elem_of in Ev.
      destruct (nonzero (idf j) && nonzero (v * idf j)) eqn:Enz.
      * apply andb_true_iff in Enz as [Hw Hp].
        apply assoc_lookup_NoDup; [apply NoDup_idf_scale_row|].
        apply idf_scale_row_distinct; [done|]. split.
        -- exact Hp.
        -- exists v, (idf j). repeat split; try done.
           cbn. by rewrite float_add_zero_l.
      * apply assoc_lookup_None. intros Hin.
        apply list_elem_of_fmap in Hin as ([j' y] & Hj' & Hin). simpl in Hj'. subst j'.
        apply idf_scale_row_distinct in Hin as (Hy & v' & w & Hin & Hw & Hnz & ->); [|done].
        rewrite Hdiag in Hw. injection Hw as <-.
        assert (v' = v) as ->.
        { apply (assoc_lookup_NoDup j _ _ Hnd) in Hin.
          apply (assoc_lookup_NoDup j _ _ Hnd) in Ev. congruence. }
        cbn in Hy, Hnz. rewrite nonzero_add_zero_l in Hy.
        assert (Htrue : nonzero (idf j) && nonzero (v * idf j) = true).
        { apply andb_true_iff. split; [exact Hnz | exact Hy]. }
        congruence.
    + apply assoc_lookup_None. intros Hin. apply idf_scale_row_keys in Hin.
      by apply assoc_lookup_None in Ev.
  - intros i j Hi row Hrow.
    assert (Hl : csr_rows (tfidf_transformer np_log (Sparse X)) !! i
                 = Some (csr_row (tfidf_transformer np_log (Sparse X)) i)).
    { by apply csr_row_lookup. }
    rewrite csr_rows_tfidf, list_lookup_fmap, Hrow in Hl.
    cbn [fmap option_fmap option_map] in Hl. injection Hl as <-.
    rewrite astype_row_float64.
    assert (Hnd : NoDup row.*1).
    { unfold idf_scaled_rows in Hrow. apply list_lookup_fmap_Some in Hrow as (r & -> & _).
      apply NoDup_idf_scale_row. }
    rewrite (assoc_lookup_fmap_values (fun v => v * (1 / row_norm row))%float).
    f_equal.
    apply assoc_lookup_Permutation; [done|]. symmetry. apply sort_indices_Permutation.
Qed.

End TfIdfFloat64.

Lemma tfidf_float64_scales_by_idf_witness :
  csr_wf four_documents = true
  /\ document_frequency four_documents !! 1%nat
     = Some (rows_with_nonzero four_documents 1)
  /\ idf_vector log_stand_in four_documents !! 1%nat
     = Some (log_stand_in (float_of_nat (4 + 1)
                           / (float_of_nat (rows_with_nonzero four_documents 1) + 1)) + 1)%float.
Proof.
  assert (Hwf : csr_wf four_documents = true) by reflexivity.
  pose proof (tfidf_float64_scales_by_idf log_stand_in four_documents Hwf)
    as (Hdf & Hidf & _).
  split; [exact Hwf|]. split.
  - apply Hdf. simpl. lia.
  - apply Hidf. simpl. lia.
Defined.

(** ** [_write_recommendations] *)

Lemma file_write_lookup_ne (path s other : string) (files : gmap string string) :
  other <> path -> file_write path s files !! other = files !! other.
Proof. intros Hne. unfold file_write. by rewrite lookup_insert_ne. Qed.

Lemma file_write_insert (path s content : string) (files : gmap string string) :
  file_write path s (<[path := content]> files) = <[path := content +:+ s]> files.
Proof.
  unfold file_write. by rewrite lookup_insert_eq, insert_insert_eq.
Qed.

Lemma string_app_assoc (a b c : string) : (a +:+ b) +:+ c = a +:+ (b +:+ c).
Proof.
  induction a as [|x a IH]; [done|].
  change (String x ((a +:+ b) +:+ c) = String x (a +:+ b +:+ c)). by rewrite IH.
Qed.

Lemma string_app_nil_r (a : string) : a +:+ "" = a.
Proof.
  induction a as [|x a IH]; [done|].
  change (String x (a +:+ "") = String x a). by rewrite IH.
Qed.

Lemma joined_app (l k : list string) : joined (l ++ k) = joined l +:+ joined k.
Proof.
  induction l as [|x l IH]; [done|].
  change (x +:+ joined (l ++ k) = (x +:+ joined l) +:+ joined k).
  by rewrite IH, string_app_assoc.
Qed.

Section WriteRecommendationsProperties.

Context {E : Type}.
Variable THUMBNAIL_PARENT_DIV : string.
Variable THUMBNAIL_PARENT_DIV_CLOSE : string.
Variable _thumbnail_div : string -> string -> string -> string -> string -> E + string.
Variable split_code_and_text_blocks : string -> E + list (string * string).
Variable extract_intro_and_title : string -> string -> E + (string * string).
Variable path_parent : string -> string.
Variable path_stem : string -> string.
Variable path_name : string -> string.
Variable path_join : string -> string -> string.
Variable open_error : string -> option E.

Notation "'thumbnail'" :=
  (example_thumbnail _thumbnail_div split_code_and_text_blocks extract_intro_and_title
     path_parent path_name).
Notation "'loop'" :=
  (write_examples _thumbnail_div split_code_and_text_blocks extract_intro_and_title
     path_parent path_name).
Notation "'write'" :=
  (_write_recommendations THUMBNAIL_PARENT_DIV THUMBNAIL_PARENT_DIV_CLOSE _thumbnail_div
     split_code_and_text_blocks extract_intro_and_title path_parent path_stem path_name
     path_join open_error).
Notation "'target'" := (recommendation_fname path_parent path_stem path_join).

Lemma write_examples_lookup_ne (fname : string) (conf : gmap string string)
    (ex_file other : string) (examples : list string) (files : gmap string string) :
  other <> ex_file ->
  (loop fname conf ex_file examples files).2 !! other = files !! other.
Proof.
  intros Hne. revert files. induction examples as [|ex rest IH]; intros files; simpl; [done|].
  destruct (thumbnail fname conf ex) as [e|div]; simpl; [done|].
  by rewrite IH, file_write_lookup_ne.
Qed.

(** The loop over examples that all have a thumbnail. *)
Lemma write_examples_all (fname : string) (conf : gmap string string)
    (ex_file content : string) (examples divs : list string) (files : gmap string string) :
  Forall2 (fun ex div => thumbnail fname conf ex = inr div) examples divs ->
  loop fname conf ex_file examples (<[ex_file := content]> files)
  = (None, <[ex_file := content +:+ joined divs]> files).
Proof.
  intros H. revert content. induction H as [|ex div examples divs Hex _ IH]; intros content.
  - simpl. by rewrite string_app_nil_r.
  - simpl. rewrite Hex, file_write_insert, IH. by rewrite string_app_assoc.
Qed.

(** The loop that meets an example without a thumbnail. *)
Lemma write_examples_stops (fname : string) (conf : gmap string string)
    (ex_file content : string) (before divs : list string) (ex : string)
    (rest : list string) (e : write_exn E) (files : gmap string string) :
  Forall2 (fun ex div => thumbnail fname conf ex = inr div) before divs ->
  thumbnail fname conf ex = inl e ->
  loop fname conf ex_file (before ++ ex :: rest) (<[ex_file := content]> files)
  = (Some e, <[ex_file := content +:+ joined divs]> files).
Proof.
  intros H He. revert content. induction H as [|ex' div before divs Hex _ IH]; intros content.
  - simpl. by rewrite He, string_app_nil_r.
  - simpl. rewrite Hex, file_write_insert, IH. by rewrite string_app_assoc.
Qed.

(** X14: for a file that is not among the fitted ones, and for a
    recommender that is not fitted, the call raises what [predict] raises
    and no file is written, created or emptied. *)
Theorem write_recommendations_unknown_file (recommender : ExampleRecommender)
    (fname : string) (conf : gmap string string) (files : gmap string string) :
  (file_names_ recommender = None
   \/ exists names, file_names_ recommender = Some names /\ fname ∉ names) ->
  exists e, predict recommender fname = Raise e
            /\ write recommender fname conf files = (Some (Exn e), files).
Proof.
  intros H.
  assert (He : exists e, predict recommender fname = Raise e).
  { unfold predict. destruct H as [H|(names & H & Hnot)]; rewrite H; cbn.
    - by eexists.
    - rewrite (list_index_None _ _ Hnot). by eexists. }
  destruct He as [e He]. exists e. split; [done|].
  unfold _write_recommendations. by rewrite He.
Qed.

(** X15: whatever happens, no file other than the [.recommendations] file
    of the query is changed. *)
Theorem write_recommendations_other_files (recommender : ExampleRecommender)
    (fname : string) (conf : gmap string string) (files : gmap string string) (other : string) :
  other <> target fname ->
  (write recommender fname conf files).2 !! other = files !! other.
Proof.
  intros Hne. unfold _write_recommendations.
  destruct (predict recommender fname) as [examples|e]; [|done].
  destruct (open_error (target fname)) as [e|]; [done|].
  match goal with
  | |- context [loop ?a ?b ?c ?d ?f] =>
      pose proof (write_examples_lookup_ne a b c other d f Hne) as Hl;
      destruct (loop a b c d f) as [[e|] files']
  end; simpl in *.
  - rewrite Hl. unfold open_w.
    by rewrite !file_write_lookup_ne, lookup_insert_ne.
  - rewrite file_write_lookup_ne by done. rewrite Hl. unfold open_w.
    by rewrite !file_write_lookup_ne, lookup_insert_ne.
Qed.

(** X16: when the file can be opened and every recommended example has a
    thumbnail, the file holds the rubric, the opening of the parent div,
    the thumbnails in the order of the recommendations and the closing of
    the div, whatever it held before. *)
Theorem write_recommendations_content (recommender : ExampleRecommender)
    (fname : string) (conf : gmap string string) (files : gmap string string)
    (examples divs : list string) :
  predict recommender fname = Ok examples ->
  open_error (target fname) = None ->
  Forall2 (fun ex div => thumbnail fname conf ex = inr div) examples divs ->
  write recommender fname conf files
  = (None,
     <[target fname := rubric +:+ THUMBNAIL_PARENT_DIV +:+ joined divs
                       +:+ THUMBNAIL_PARENT_DIV_CLOSE]> files).
Proof.
  intros Hp Ho Hd. unfold _write_recommendations. rewrite Hp, Ho.
  unfold open_w. rewrite !file_write_insert, (write_examples_all _ _ _ _ _ _ _ Hd).
  rewrite file_write_insert. by rewrite !string_app_assoc.
Qed.

(** X17: when a recommended example has no thumbnail the exception is
    raised and the file is left behind with the rubric, the opening of the
    parent div and the thumbnails of the examples before that one: the div
    is not closed, and what the file held before is lost. *)
Theorem write_recommendations_partial_file (recommender : ExampleRecommender)
    (fname : string) (conf : gmap string string) (files : gmap string string)
    (before divs : list string) (ex : string) (rest : list string) (e : write_exn E) :
  predict recommender fname = Ok (before ++ ex :: rest) ->
  open_error (target fname) = None ->
  Forall2 (fun ex div => thumbnail fname conf ex = inr div) before divs ->
  thumbnail fname conf ex = inl e ->
  write recommender fname conf files
  = (Some e, <[target fname := rubric +:+ THUMBNAIL_PARENT_DIV +:+ joined divs]> files).
Proof.
  intros Hp Ho Hd He. unfold _write_recommendations. rewrite Hp, Ho.
  unfold open_w. rewrite !file_write_insert, (write_examples_stops _ _ _ _ _ _ _ _ _ _ Hd He).
  by rewrite !string_app_assoc.
Qed.

End WriteRecommendationsProperties.

Lemma write_recommendations_unknown_file_witness :
  (file_names_ three_documents = None
   \/ exists names, file_names_ three_documents = Some names /\ "d.py" ∉ names)
  /\ exists e,
       predict three_documents "d.py" = Raise e
       /\ _write_recommendations "<div>" "</div>" div_but_c one_block intro_and_title
            parent_of_bare stem_of_py name_of_bare join_cwd always_opens
            three_documents "d.py" src_dir_conf ∅
          = (Some (Exn e), ∅).
Proof.
  assert (H : file_names_ three_documents = None
              \/ exists names, file_names_ three_documents = Some names /\ "d.py" ∉ names).
  { right. eexists. split; [reflexivity|].
    rewrite !elem_of_cons, elem_of_nil. intros [?|[?|[?|[]]]]; congruence. }
  split; [exact H|].
  exact (write_recommendations_unknown_file "<div>" "</div>" div_but_c one_block
           intro_and_title parent_of_bare stem_of_py name_of_bare join_cwd always_opens
           three_documents "d.py" src_dir_conf ∅ H).
Defined.

Lemma write_recommendations_other_files_witness :
  "a.py" <> recommendation_fname parent_of_bare stem_of_py join_cwd "a.py"
  /\ (_write_recommendations "<div>" "</div>" div_but_c one_block intro_and_title
        parent_of_bare stem_of_py name_of_bare join_cwd always_opens
        three_documents "a.py" src_dir_conf {["a.py" := "print(1)"]}).2 !! "a.py"
     = ({["a.py" := "print(1)"]} : gmap string string) !! "a.py".
Proof.
  assert (H : "a.py" <> recommendation_fname parent_of_bare stem_of_py join_cwd "a.py")
    by (vm_compute; discriminate).
  split; [exact H|].
  exact (write_recommendations_other_files "<div>" "</div>" div_but_c one_block
           intro_and_title parent_of_bare stem_of_py name_of_bare join_cwd always_opens
           three_documents "a.py" src_dir_conf {["a.py" := "print(1)"]} "a.py" H).
Defined.

Lemma write_recommendations_content_witness :
  (predict three_documents "c.py" = Ok ["a.py"; "b.py"]
   /\ always_opens (recommendation_fname parent_of_bare stem_of_py join_cwd "c.py") = None
   /\ Forall2 (fun ex div =>
                 example_thumbnail div_but_c one_block intro_and_title parent_of_bare
                   name_of_bare "c.py" src_dir_conf ex = inr div)
        ["a.py"; "b.py"] ["<a.py>"; "<b.py>"])
  /\ _write_recommendations "<div>" "</div>" div_but_c one_block intro_and_title
       parent_of_bare stem_of_py name_of_bare join_cwd always_opens
       three_documents "c.py" src_dir_conf {["c.recommendations" := "old"]}
     = (None,
        <[recommendation_fname parent_of_bare stem_of_py join_cwd "c.py"
          := rubric +:+ "<div>" +:+ joined ["<a.py>"; "<b.py>"] +:+ "</div>"]>
          {["c.recommendations" := "old"]}).
Proof.
  assert (Hp : predict three_documents "c.py" = Ok ["a.py"; "b.py"])
    by (vm_compute; reflexivity).
  assert (Hd : Forall2 (fun ex div =>
                 example_thumbnail div_but_c one_block intro_and_title parent_of_bare
                   name_of_bare "c.py" src_dir_conf ex = inr div)
        ["a.py"; "b.py"] ["<a.py>"; "<b.py>"]).
  { repeat constructor. }
  split; [by repeat split|].
  exact (write_recommendations_content "<div>" "</div>" div_but_c one_block
           intro_and_title parent_of_bare stem_of_py name_of_bare join_cwd always_opens
           three_documents "c.py" src_dir_conf {["c.recommendations" := "old"]}
           ["a.py"; "b.py"] ["<a.py>"; "<b.py>"] Hp eq_refl Hd).
Defined.

Lemma write_recommendations_partial_file_witness :
  (predict three_documents "a.py" = Ok (["b.py"] ++ "c.py" :: [])
   /\ always_opens (recommendation_fname parent_of_bare stem_of_py join_cwd "a.py") = None
   /\ Forall2 (fun ex div =>
                 example_thumbnail div_but_c one_block intro_and_title parent_of_bare
                   name_of_bare "a.py" src_dir_conf ex = inr div)
        ["b.py"] ["<b.py>"]
   /\ example_thumbnail div_but_c one_block intro_and_title parent_of_bare
        name_of_bare "a.py" src_dir_conf "c.py" = inl (External tt))
  /\ _write_recommendations "<div>" "</div>" div_but_c one_block intro_and_title
       parent_of_bare stem_of_py name_of_bare join_cwd always_opens
       three_documents "a.py" src_dir_conf {["a.recommendations" := "old"]}
     = (Some (External tt),
        <[recommendation_fname parent_of_bare stem_of_py join_cwd "a.py"
          := rubric +:+ "<div>" +:+ joined ["<b.py>"]]>
          {["a.recommendations" := "old"]}).
Proof.
  assert (Hp : predict three_documents "a.py" = Ok (["b.py"] ++ "c.py" :: []))
    by (vm_compute; reflexivity).
  assert (Hd : Forall2 (fun ex div =>
                 example_thumbnail div_but_c one_block intro_and_title parent_of_bare
                   name_of_bare "a.py" src_dir_conf ex = inr div)
        ["b.py"] ["<b.py>"]).
  { repeat constructor. }
  split; [by repeat split|].
  exact (write_recommendations_partial_file "<div>" "</div>" div_but_c one_block
           intro_and_title parent_of_bare stem_of_py name_of_bare join_cwd always_opens
           three_documents "a.py" src_dir_conf {["a.recommendations" := "old"]}
           ["b.py"] ["<b.py>"] "c.py" [] (External tt) Hp eq_refl Hd eq_refl).
Defined.
